(** * Smart Inventory: the order-processor function app

    A shallow embedding of [order-processor/function_app.py]: the two
    Service Bus triggered handlers [process_order] and [confirm_order], the
    SQL statements they send, the transaction scope [engine.begin()], the
    confirmation queue and the invoice container of the blob store. *)

From Stdlib Require Import ZArith String Ascii Lia.
From Stdlib Require Import Floats.PrimFloat Floats.SpecFloat Floats.FloatOps.
From stdpp Require Import base gmap strings list pretty.

Local Open Scope Z_scope.

(** ** The ledger tables *)

(** Modelled from the spec: the schema is not part of the function app, the
    tables are those of the spec's logical ledger schema,
    [orders(order_id PK, warehouse_id, status, invoice_blob)],
    [inventory(product_id, warehouse_id, quantity)],
    [order_items(order_id, product_id PK pair, quantity, price)] and
    [invoice(order_id, created_at)].  Integer columns are unbounded and
    signed, the price column holds a binary64 number, and a table is the list
    of its rows in insertion order, which is the order a SELECT returns. *)
Record order_row := OrderRow {
  o_order_id : Z;
  o_warehouse_id : Z;
  o_status : string;
  o_invoice_blob : option string }.

Record inventory_row := InventoryRow {
  inv_product_id : Z;
  inv_warehouse_id : Z;
  inv_quantity : Z }.

Record order_item_row := OrderItemRow {
  oi_order_id : Z;
  oi_product_id : Z;
  oi_quantity : Z;
  oi_price : float }.

Record invoice_row := InvoiceRow {
  invc_order_id : Z;
  invc_created_at : Z }.

Record DB := MkDB {
  orders : list order_row;
  inventory : list inventory_row;
  order_items : list order_item_row;
  invoice : list invoice_row }.

(** The wire entities, after [json.loads] and the subscripts
    [order_event["order_id"]], [item["quantity"]], ... *)
Record Item := MkItem {
  product_id : Z;
  quantity : Z;
  price : float }.

Record OrderEvent := MkOrderEvent {
  order_id : Z;
  warehouse_id : Z;
  items : list Item }.

(** ** Exceptions and the effect monad *)

Inductive exn :=
  | OperationalError   (* the store is unreachable or a statement fails *)
  | IntegrityError     (* a primary key is inserted twice *)
  | OverflowError      (* float() of an int beyond the binary64 range *)
  | ServiceBusError    (* the confirmation queue refuses the message *)
  | BlobStorageError   (* the upload fails *)
  | JSONDecodeError    (* json.loads rejects the body *)
  | KeyError           (* a subscript names a missing key *)
  | TypeError.         (* a value has the wrong shape *)

(** A computation over a state [S].  Its second argument is the fault
    schedule of the infrastructure: [Some n] lets [n] external
    operations through and fails the next one, [None] never fails.  A handler
    stops at its first exception, so one fault point covers every run. *)
Inductive res (S A : Type) :=
  | Done (a : A) (s : S) (fuse : option nat)
  | Raised (e : exn) (s : S).
Arguments Done {S A} a s fuse.
Arguments Raised {S A} e s.

Definition Eff (S A : Type) : Type := S → option nat → res S A.

Global Instance eff_ret {S} : MRet (Eff S) := λ A a s f, Done a s f.

Global Instance eff_bind {S} : MBind (Eff S) := λ A B k m s f,
  match m s f with
  | Done a s' f' => k a s' f'
  | Raised e s' => Raised e s'
  end.

Definition raise {S A} (e : exn) : Eff S A := λ s _, Raised e s.

(** One external operation: it raises [e] when the fuse has run out. *)
Definition tick {S} (e : exn) : Eff S unit :=
  λ s f, match f with
         | Some O => Raised e s
         | Some (S n) => Done tt s (Some n)
         | None => Done tt s None
         end.

Definition modify {S} (g : S → S) : Eff S unit := λ s f, Done tt (g s) f.

(** [for x in l: body(x)] *)
Fixpoint for_each {S A} (l : list A) (body : A → Eff S unit) : Eff S unit :=
  match l with
  | [] => mret tt
  | x :: l' => body x ;; for_each l' body
  end.

(** A SQL statement reads and updates the connection's view of the tables. *)
Definition stmt (A : Type) : Type := DB → exn + A * DB.

Definition run_stmt {A} (q : stmt A) : Eff DB A :=
  λ d f, match q d with
         | inl e => Raised e d
         | inr (a, d') => Done a d' f
         end.

(** [conn.execute(text(...), params)]: a round trip to the store, which can
    fail, then the statement's effect on the connection's view. *)
Definition execute {A} (q : stmt A) : Eff DB A :=
  tick OperationalError ;; run_stmt q.

(** ** The SQL statements of the two handlers *)

Definition set_orders (o : list order_row) (d : DB) : DB :=
  MkDB o (inventory d) (order_items d) (invoice d).
Definition set_inventory (i : list inventory_row) (d : DB) : DB :=
  MkDB (orders d) i (order_items d) (invoice d).
Definition set_order_items (i : list order_item_row) (d : DB) : DB :=
  MkDB (orders d) (inventory d) i (invoice d).
Definition set_invoice (i : list invoice_row) (d : DB) : DB :=
  MkDB (orders d) (inventory d) (order_items d) i.

(** [SELECT order_id FROM orders WHERE order_id = :oid], [.fetchone()] *)
Definition select_order_id (oid : Z) : stmt (option Z) := λ d,
  inr (o_order_id <$> head (filter (λ r, o_order_id r = oid) (orders d)), d).

(** [INSERT INTO orders (order_id, warehouse_id, status)
     VALUES (:oid, :wid, 'reserved')]; the primary key refuses a second row
    for the same [order_id]. *)
Definition insert_order (oid wid : Z) : stmt unit := λ d,
  if decide (oid ∈ o_order_id <$> orders d) then inl IntegrityError
  else inr (tt, set_orders (orders d ++ [OrderRow oid wid "reserved" None]) d).

Definition with_status (st : string) (r : order_row) : order_row :=
  OrderRow (o_order_id r) (o_warehouse_id r) st (o_invoice_blob r).

(** [UPDATE orders SET status = 'reserved' WHERE order_id = :oid] and
    [UPDATE orders SET status = 'confirmed' WHERE order_id = :oid] *)
Definition update_order_status (st : string) (oid : Z) : stmt unit := λ d,
  inr (tt, set_orders
             ((λ r, if decide (o_order_id r = oid) then with_status st r else r)
                <$> orders d) d).

(** [UPDATE inventory SET quantity = quantity - :qty
     WHERE product_id = :pid AND warehouse_id = :wid] *)
Definition decrement_row (qty pid wid : Z) (r : inventory_row) : inventory_row :=
  if decide (inv_product_id r = pid ∧ inv_warehouse_id r = wid)
  then InventoryRow (inv_product_id r) (inv_warehouse_id r) (inv_quantity r - qty)
  else r.

Definition update_inventory (qty pid wid : Z) : stmt unit := λ d,
  inr (tt, set_inventory (decrement_row qty pid wid <$> inventory d) d).

(** [INSERT INTO order_items (order_id, product_id, quantity, price)
     VALUES (:oid, :pid, :qty, :price)
     ON DUPLICATE KEY UPDATE quantity = :qty, price = :price] *)
Definition item_key (r : order_item_row) : Z * Z := (oi_order_id r, oi_product_id r).

Definition overwrite_item (oid pid qty : Z) (p : float) (r : order_item_row)
  : order_item_row :=
  if decide (item_key r = (oid, pid)) then OrderItemRow oid pid qty p else r.

Definition upsert_rows (oid pid qty : Z) (p : float) (t : list order_item_row)
  : list order_item_row :=
  if decide ((oid, pid) ∈ item_key <$> t)
  then overwrite_item oid pid qty p <$> t
  else t ++ [OrderItemRow oid pid qty p].

Definition upsert_order_item (oid pid qty : Z) (p : float) : stmt unit := λ d,
  inr (tt, set_order_items (upsert_rows oid pid qty p (order_items d)) d).

(** [SELECT * FROM orders WHERE order_id = :oid], [.mappings().first()] *)
Definition select_order (oid : Z) : stmt (option order_row) := λ d,
  inr (head (filter (λ r, o_order_id r = oid) (orders d)), d).

(** [SELECT product_id, quantity, price FROM order_items WHERE order_id = :oid],
    [.mappings().all()] *)
Definition select_order_items (oid : Z) : stmt (list order_item_row) := λ d,
  inr (filter (λ r, oi_order_id r = oid) (order_items d), d).

(** [INSERT INTO invoice(order_id, created_at) VALUES (:oid, NOW())] *)
Definition insert_invoice (oid now : Z) : stmt unit := λ d,
  inr (tt, set_invoice (invoice d ++ [InvoiceRow oid now]) d).

(** [UPDATE orders SET invoice_blob = :url WHERE order_id = :oid] *)
Definition with_invoice_blob (url : string) (r : order_row) : order_row :=
  OrderRow (o_order_id r) (o_warehouse_id r) (o_status r) (Some url).

Definition update_invoice_blob (url : string) (oid : Z) : stmt unit := λ d,
  inr (tt, set_orders
             ((λ r, if decide (o_order_id r = oid) then with_invoice_blob url r else r)
                <$> orders d) d).

(** ** The world a handler runs in *)

(** What [InvoicePDF] is given to lay out: the cells in the order they are
    written.  Fonts, colours and the two-decimal formatting of the amounts are
    left to the rendering library. *)
Record invoice_pdf := MkInvoicePDF {
  pdf_invoice_no : Z;
  pdf_date : Z;
  pdf_order_id : Z;
  pdf_warehouse_id : Z;
  pdf_lines : list (Z * Z * float * float);
  pdf_grand_total : float }.

Record World := MkWorld {
  db : DB;
  invoices : gmap string invoice_pdf;        (* blob container "invoices" *)
  order_confirmation_queue : list string }.  (* message bodies, oldest first *)

Definition set_db (d : DB) (w : World) : World :=
  MkWorld d (invoices w) (order_confirmation_queue w).

(** What an invocation reads from its surroundings: the store's clock for
    [NOW()], the host's clock for [datetime.now()], and the storage account's
    address from which [blob_client.url] is built. *)
Record Env := MkEnv {
  db_now : Z;
  local_now : Z;
  account_url : string }.

(** [with engine.begin() as conn: body]: the body works on the connection's
    view; leaving the block normally commits it, leaving it by an exception
    rolls it back and lets the exception through. *)
Definition engine_begin {A} (body : Eff DB A) : Eff World A := λ w f,
  match tick OperationalError w f with
  | Raised e _ => Raised e w
  | Done _ _ f1 =>
    match body (db w) f1 with
    | Raised e _ => Raised e w
    | Done a d f2 =>
      match tick OperationalError w f2 with
      | Raised e _ => Raised e w
      | Done _ _ f3 => Done a (set_db d w) f3
      end
    end
  end.

(** The double quote and the apostrophe, by their character codes. *)
Definition dquote : ascii := "034"%char.
Definition squote : ascii := "039"%char.

(** [json.dumps({"order_id": order_id})] *)
Definition confirmation_body (oid : Z) : string :=
  "{" +:+ String dquote "order_id" +:+ String dquote ": " +:+ pretty oid +:+ "}".

(** [send_to_confirmation_queue]: one message on [order-confirmation-queue]. *)
Definition send_to_confirmation_queue (oid : Z) : Eff World unit :=
  tick ServiceBusError ;;
  modify (λ w, MkWorld (db w) (invoices w)
                 (order_confirmation_queue w ++ [confirmation_body oid])).

(** ** The reservation handler *)

(** The body of [with engine.begin() as conn:] in [process_order]: the order
    is inserted as reserved or set back to reserved, the inventory is
    decremented for every item, and every item is upserted. *)
Definition process_order_tx (ev : OrderEvent) : Eff DB unit :=
  existing ← execute (select_order_id (order_id ev));
  match existing with
  | None => execute (insert_order (order_id ev) (warehouse_id ev))
  | Some _ => execute (update_order_status "reserved" (order_id ev))
  end ;;
  for_each (items ev) (λ item,
    execute (update_inventory (quantity item) (product_id item) (warehouse_id ev))) ;;
  for_each (items ev) (λ item,
    execute (upsert_order_item (order_id ev) (product_id item)
               (quantity item) (price item))).

(** [process_order] from the parsed event on: the transaction, then the
    message to the confirmation queue.  The [except] clause logs and
    re-raises, so an exception leaves the handler as it came. *)
Definition process_order_event (ev : OrderEvent) : Eff World unit :=
  engine_begin (process_order_tx ev) ;;
  send_to_confirmation_queue (order_id ev).

(** ** The confirmation handler *)

(** [float(n)] for an int: the nearest binary64 number, ties to even, and
    [OverflowError] beyond the range. *)
Definition float_of_int (n : Z) : exn + float :=
  let x := SF2Prim (binary_normalize prec emax n 0 false) in
  if PrimFloat.is_infinity x then inl OverflowError else inr x.

(** [float(qty) * float(price)]; the price is a float already. *)
Definition line_total (qty : Z) (p : float) : exn + float :=
  match float_of_int qty with
  | inl e => inl e
  | inr q => inr (q * p)%float
  end.

Fixpoint line_totals (rows : list order_item_row) : exn + list float :=
  match rows with
  | [] => inr []
  | r :: rows' =>
    match line_total (oi_quantity r) (oi_price r) with
    | inl e => inl e
    | inr x =>
      match line_totals rows' with
      | inl e => inl e
      | inr xs => inr (x :: xs)
      end
    end
  end.

Definition lift {S A} (r : exn + A) : Eff S A :=
  λ s f, match r with inl e => Raised e s | inr a => Done a s f end.

(** The item rows of the invoice table, written by the loop over [items]. *)
Fixpoint pdf_rows (rows : list order_item_row) : exn + list (Z * Z * float * float) :=
  match rows with
  | [] => inr []
  | r :: rows' =>
    match line_total (oi_quantity r) (oi_price r) with
    | inl e => inl e
    | inr x =>
      match pdf_rows rows' with
      | inl e => inl e
      | inr xs => inr ((oi_product_id r, oi_quantity r, oi_price r, x) :: xs)
      end
    end
  end.

Definition container_name : string := "invoices".

(** [f"invoice_order_{order_id}.pdf"] *)
Definition blob_name (oid : Z) : string :=
  "invoice_order_" +:+ pretty oid +:+ ".pdf".

(** [blob_client.url] *)
Definition blob_url (env : Env) (name : string) : string :=
  account_url env +:+ "/" +:+ container_name +:+ "/" +:+ name.

(** [blob_client.upload_blob(BytesIO(pdf_bytes), overwrite=True)] *)
Definition upload_blob (name : string) (doc : invoice_pdf) : Eff World unit :=
  tick BlobStorageError ;;
  modify (λ w, MkWorld (db w) (<[name := doc]> (invoices w))
                 (order_confirmation_queue w)).

(** The naive left-to-right float sum from 0, which is what the builtin [sum]
    computes up to Python 3.11 (later versions compensate the rounding). *)
Definition sum_left (xs : list float) : float :=
  foldl (λ acc x, (acc + x)%float) 0%float xs.

Section Handlers.

(** The builtin [sum] on a list of floats: its rounding depends on the Python
    version the function app runs on, so the handler is stated for any. *)
Variable py_sum : list float → float.

(** The body of the first [with engine.begin() as conn:] in [confirm_order]:
    [None] is the early [return] for an order that is not there. *)
Definition confirm_order_tx (env : Env) (oid : Z)
  : Eff DB (option (order_row * list order_item_row * float)) :=
  order ← execute (select_order oid);
  match order with
  | None => mret None
  | Some o =>
    execute (update_order_status "confirmed" oid) ;;
    rows ← execute (select_order_items oid);
    products ← lift (line_totals rows);
    execute (insert_invoice oid (db_now env)) ;;
    mret (Some (o, rows, py_sum products))
  end.

(** The body of the second block. *)
Definition invoice_blob_tx (env : Env) (oid : Z) : Eff DB unit :=
  execute (update_invoice_blob (blob_url env (blob_name oid)) oid).

(** What follows the first block: the invoice is laid out and uploaded, and a
    second transaction stores its address. *)
Definition publish_invoice (env : Env) (oid : Z)
    (found : option (order_row * list order_item_row * float)) : Eff World unit :=
  match found with
  | None => mret tt
  | Some (o, rows, total_amount) =>
    lines ← lift (pdf_rows rows);
    upload_blob (blob_name oid)
      (MkInvoicePDF oid (local_now env) oid (o_warehouse_id o) lines total_amount) ;;
    engine_begin (invoice_blob_tx env oid)
  end.

(** [confirm_order] from the parsed event on. *)
Definition confirm_order_event (env : Env) (oid : Z) : Eff World unit :=
  found ← engine_begin (confirm_order_tx env oid);
  publish_invoice env oid found.

End Handlers.


(** ** Message bodies *)

(** The value [json.loads] returns.  An object keeps its members in the order
    of the text; a number written without fraction and exponent is an int, any
    other a float. *)
#[warnings="-register-all"]
Inductive json :=
  | JNull
  | JBool (b : bool)
  | JInt (n : Z)
  | JFloat (x : float)
  | JString (s : string)
  | JArray (l : list json)
  | JObject (members : list (string * json)).

(** [d[key]] on the dict built from an object: of two members with one name
    the later one is kept. *)
Fixpoint dict_get (key : string) (members : list (string * json)) : option json :=
  match members with
  | [] => None
  | (k, v) :: rest =>
    match dict_get key rest with
    | Some v' => Some v'
    | None => if decide (k = key) then Some v else None
    end
  end.

(** [v[key]]: [KeyError] for a missing key, [TypeError] for a value that is
    not subscripted by a string. *)
Definition subscript (v : json) (key : string) : exn + json :=
  match v with
  | JObject members =>
    match dict_get key members with
    | Some x => inr x
    | None => inl KeyError
    end
  | _ => inl TypeError
  end.

(** Modelled from the spec: the wire formats
    [{"order_id": int, "warehouse_id": int, "items": [{"product_id": int,
    "quantity": int, "price": number}, ...]}] and [{"order_id": int}] give
    the types of the statement parameters.  The function app does not check
    the types of the values it subscripts, and what the driver and the store
    make of a parameter of another type is not in the sources: where a value
    is bound to a parameter, one outside the format is refused with
    [TypeError]. *)
Definition as_int (v : json) : exn + Z :=
  match v with
  | JInt n => inr n
  | _ => inl TypeError
  end.

Definition as_number (v : json) : exn + float :=
  match v with
  | JInt n => float_of_int n
  | JFloat x => inr x
  | _ => inl TypeError
  end.

Definition exn_bind {A B} (r : exn + A) (k : A → exn + B) : exn + B :=
  match r with
  | inl e => inl e
  | inr a => k a
  end.

Definition item_of_json (v : json) : exn + Item :=
  exn_bind (exn_bind (subscript v "product_id") as_int) (λ pid,
  exn_bind (exn_bind (subscript v "quantity") as_int) (λ qty,
  exn_bind (exn_bind (subscript v "price") as_number) (λ p,
  inr (MkItem pid qty p)))).

Fixpoint items_of_json (l : list json) : exn + list Item :=
  match l with
  | [] => inr []
  | v :: l' =>
    exn_bind (item_of_json v) (λ it,
    exn_bind (items_of_json l') (λ its, inr (it :: its)))
  end.

(** The event a parsed body in the wire format stands for: the three members
    of the dict and the three of every item, with the types of the format. *)
Definition order_event_of_json (v : json) : exn + OrderEvent :=
  exn_bind (exn_bind (subscript v "order_id") as_int) (λ oid,
  exn_bind (exn_bind (subscript v "warehouse_id") as_int) (λ wid,
  exn_bind (subscript v "items") (λ its,
  match its with
  | JArray l => exn_bind (items_of_json l) (λ its, inr (MkOrderEvent oid wid its))
  | _ => inl TypeError
  end))).

(** [event["order_id"]] *)
Definition confirmation_of_json (v : json) : exn + Z :=
  exn_bind (subscript v "order_id") as_int.

(** [s.replace(old, new)] for one-character [old] and [new].  A body is the
    UTF-8 text of the message; the apostrophe and the double quote are single
    bytes that occur in no longer sequence, so replacing bytes is replacing
    characters. *)
Fixpoint str_replace (old new : ascii) (s : string) : string :=
  match s with
  | EmptyString => EmptyString
  | String c s' =>
    String (if decide (c = old) then new else c) (str_replace old new s')
  end.

(** [for item in items]: the elements of a list, the keys of a dict, each
    once and in the order they came first, the characters of a string (as
    bytes of its UTF-8 text, all of them strings); a value of another kind is
    not iterable. *)
Fixpoint dict_keys (members : list (string * json)) : list string :=
  match members with
  | [] => []
  | (k, _) :: rest => k :: filter (λ k', k' ≠ k) (dict_keys rest)
  end.

Definition py_iter (v : json) : exn + list json :=
  match v with
  | JArray l => inr l
  | JObject members => inr (JString <$> dict_keys members)
  | JString s => inr ((λ c, JString (String c "")) <$> list_ascii_of_string s)
  | _ => inl TypeError
  end.

(** The body of [with engine.begin() as conn:] in [process_order], on the
    values subscripted from the parsed body.  The items are subscripted where
    their statement is built, inside the block, and a value is checked against
    its parameter's type where it is bound, before the statement's round
    trip. *)
Definition process_order_block (order_id warehouse_id items : json) : Eff DB unit :=
  existing ← (oid ← lift (as_int order_id); execute (select_order_id oid));
  match existing with
  | None =>
    oid ← lift (as_int order_id);
    wid ← lift (as_int warehouse_id);
    execute (insert_order oid wid)
  | Some _ =>
    oid ← lift (as_int order_id);
    execute (update_order_status "reserved" oid)
  end ;;
  l ← lift (py_iter items);
  for_each l (λ item,
    qty ← lift (subscript item "quantity");
    pid ← lift (subscript item "product_id");
    qty ← lift (as_int qty);
    pid ← lift (as_int pid);
    wid ← lift (as_int warehouse_id);
    execute (update_inventory qty pid wid)) ;;
  l ← lift (py_iter items);
  for_each l (λ item,
    pid ← lift (subscript item "product_id");
    qty ← lift (subscript item "quantity");
    p ← lift (subscript item "price");
    oid ← lift (as_int order_id);
    pid ← lift (as_int pid);
    qty ← lift (as_int qty);
    p ← lift (as_number p);
    execute (upsert_order_item oid pid qty p)).

Section Bodies.

(** [json.loads]: [None] is [JSONDecodeError]. *)
Variable json_loads : string → option json.
Variable py_sum : list float → float.

(** [process_order]: the body is parsed as it came and subscripted for
    [order_id], [warehouse_id] and [items], in this order; then the block, and
    the message to the confirmation queue, for the order id the block has
    bound as an int. *)
Definition process_order (body : string) : Eff World unit :=
  match json_loads body with
  | None => raise JSONDecodeError
  | Some order_event =>
    order_id ← lift (subscript order_event "order_id");
    warehouse_id ← lift (subscript order_event "warehouse_id");
    items ← lift (subscript order_event "items");
    engine_begin (process_order_block order_id warehouse_id items) ;;
    oid ← lift (as_int order_id);
    send_to_confirmation_queue oid
  end.

(** [confirm_order]: the body is parsed after [body.replace], which puts a
    double quote for every apostrophe. *)
Definition confirm_order (env : Env) (body : string) : Eff World unit :=
  match json_loads (str_replace squote dquote body) with
  | None => raise JSONDecodeError
  | Some event =>
    oid ← lift (confirmation_of_json event);
    confirm_order_event py_sum env oid
  end.

End Bodies.

(** *** A reader for plain JSON texts *)

(** What [json.loads] does on plain texts: objects, arrays, strings without
    escapes, integers, [true], [false] and [null], with blanks between the
    tokens.  Escapes, fractions and exponents are not modelled and such texts
    are refused, so this reader stands for [json.loads] on plain texts only. *)
Definition is_blank (c : ascii) : bool :=
  match c with
  | " " | "009" | "010" | "013" => true
  | _ => false
  end%char.

Fixpoint skip_blanks (s : string) : string :=
  match s with
  | String c s' => if is_blank c then skip_blanks s' else s
  | EmptyString => s
  end.

Definition digit_of (c : ascii) : option Z :=
  let n := Z.of_N (N_of_ascii c) in
  if decide (48 ≤ n ≤ 57) then Some (n - 48) else None.

(** The digits at the head of [s], as a number, and what follows them. *)
Fixpoint read_digits (acc : Z) (s : string) : Z * string :=
  match s with
  | String c s' =>
    match digit_of c with
    | Some d => read_digits (10 * acc + d) s'
    | None => (acc, s)
    end
  | EmptyString => (acc, s)
  end.

Definition starts_fraction (s : string) : bool :=
  match s with
  | String "." _ | String "e" _ | String "E" _ => true
  | _ => false
  end.

(** An integer without sign: a single [0], or digits that do not start with
    [0]; a fraction or an exponent after it is refused. *)
Definition read_natural (s : string) : option (Z * string) :=
  match s with
  | String c s' =>
    match digit_of c with
    | Some 0 => if starts_fraction s' then None else Some (0, s')
    | Some d =>
      let '(n, rest) := read_digits d s' in
      if starts_fraction rest then None else Some (n, rest)
    | None => None
    end
  | EmptyString => None
  end.

(** The characters of a string up to its closing quote; a backslash and a
    control character are refused. *)
Fixpoint read_string (s : string) : option (string * string) :=
  match s with
  | EmptyString => None
  | String c s' =>
    if decide (c = dquote) then Some (EmptyString, s')
    else if decide (c = "092"%char) then None
    else if decide (N_of_ascii c < 32)%N then None
    else match read_string s' with
         | Some (str, rest) => Some (String c str, rest)
         | None => None
         end
  end.

Definition read_word (word : string) (v : json) (s : string)
  : option (json * string) :=
  if String.prefix word s
  then Some (v, String.substring (String.length word)
                  (String.length s - String.length word) s)
  else None.

(** One value at the head of [s], and the members and elements of an open
    object and array, by recursion on [fuel]. *)
Fixpoint read_value (fuel : nat) (s : string) : option (json * string) :=
  match fuel with
  | O => None
  | S fuel' =>
    match s with
    | String "{" s' =>
      match skip_blanks s' with
      | String "}" rest => Some (JObject [], rest)
      | s'' =>
        match read_members fuel' s'' with
        | Some (ms, rest) => Some (JObject ms, rest)
        | None => None
        end
      end
    | String "[" s' =>
      match skip_blanks s' with
      | String "]" rest => Some (JArray [], rest)
      | s'' =>
        match read_elements fuel' s'' with
        | Some (vs, rest) => Some (JArray vs, rest)
        | None => None
        end
      end
    | String "-" s' =>
      match read_natural s' with
      | Some (n, rest) => Some (JInt (- n), rest)
      | None => None
      end
    | String "t" _ => read_word "true" (JBool true) s
    | String "f" _ => read_word "false" (JBool false) s
    | String "n" _ => read_word "null" JNull s
    | String c s' =>
      if decide (c = dquote) then
        match read_string s' with
        | Some (str, rest) => Some (JString str, rest)
        | None => None
        end
      else
        match read_natural s with
        | Some (n, rest) => Some (JInt n, rest)
        | None => None
        end
    | EmptyString => None
    end
  end
with read_members (fuel : nat) (s : string)
  : option (list (string * json) * string) :=
  match fuel with
  | O => None
  | S fuel' =>
    match s with
    | String c s' =>
      if decide (c = dquote) then
        match read_string s' with
        | Some (key, rest) =>
          match skip_blanks rest with
          | String ":" rest' =>
            match read_value fuel' (skip_blanks rest') with
            | Some (v, rest'') =>
              match skip_blanks rest'' with
              | String "}" tail => Some ([(key, v)], tail)
              | String "," tail =>
                match read_members fuel' (skip_blanks tail) with
                | Some (ms, tail') => Some ((key, v) :: ms, tail')
                | None => None
                end
              | _ => None
              end
            | None => None
            end
          | _ => None
          end
        | None => None
        end
      else None
    | EmptyString => None
    end
  end
with read_elements (fuel : nat) (s : string) : option (list json * string) :=
  match fuel with
  | O => None
  | S fuel' =>
    match read_value fuel' s with
    | Some (v, rest) =>
      match skip_blanks rest with
      | String "]" tail => Some ([v], tail)
      | String "," tail =>
        match read_elements fuel' (skip_blanks tail) with
        | Some (vs, tail') => Some (v :: vs, tail')
        | None => None
        end
      | _ => None
      end
    | None => None
    end
  end.

Definition json_loads_plain (s : string) : option json :=
  match read_value (2 * String.length s + 2) (skip_blanks s) with
  | Some (v, rest) =>
    match skip_blanks rest with
    | EmptyString => Some v
    | _ => None
    end
  | None => None
  end.

(** ** The credential surface: [app/auth.py] and [app/routes/auth_router.py] *)

(** A value in a token's payload: a string, or a time in seconds, which is
    what [exp] is once encoded. *)
Inductive claim :=
  | CStr (s : string)
  | CTime (t : Z).

(** An entry of [fake_users_db]. *)
Record user := MkUser {
  u_username : string;
  u_hashed_password : string;
  u_role : string }.

(** [HTTPException(status_code=..., detail=...)] *)
Record http_error := HTTPException {
  status_code : Z;
  detail : string }.

(** [{"access_token": token, "token_type": "bearer"}] *)
Record login_response (token : Type) := MkLoginResponse {
  access_token : token;
  token_type : string }.
Arguments MkLoginResponse {token} _ _.
Arguments access_token {token} _.
Arguments token_type {token} _.

Definition ACCESS_TOKEN_EXPIRE_MINUTES : Z := 60.

(** [raw_users]: user name, password, role. *)
Definition raw_users : list (string * (string * string)) :=
  [("admin", ("admin123", "admin")); ("warehouse", ("warehouse123", "warehouse"))].

Section Auth.

(** The libraries: [pwd_context.hash] as it came out when the module was
    loaded and [pwd_context.verify]; [jwt.encode] and [jwt.decode] with the
    module's key and algorithm, the decoder reading the clock to judge [exp];
    and the builtin text of a tuple of role names. *)
Variable pwd_hash : string → string.
Variable pwd_verify : string → string → bool.
Variable token : Type.
Variable jwt_encode : gmap string claim → token.
Variable jwt_decode : Z → token → option (gmap string claim).
Variable tuple_repr : list string → string.

(** The dict comprehension over [raw_users.items()]. *)
Definition fake_users_db : gmap string user :=
  list_to_map ((λ e, (e.1, MkUser e.1 (pwd_hash e.2.1) e.2.2)) <$> raw_users).

Definition verify_password (plain_password hashed_password : string) : bool :=
  pwd_verify plain_password hashed_password.

(** [authenticate_user]: [None] for an unknown name and for a password that
    does not verify. *)
Definition authenticate_user (username password : string) : option user :=
  match fake_users_db !! username with
  | None => None
  | Some u =>
    if verify_password password (u_hashed_password u) then Some u else None
  end.

(** [create_access_token]: a copy of [data] with [exp] set to an hour from
    [now], encoded. *)
Definition create_access_token (data : gmap string claim) (now : Z) : token :=
  jwt_encode (<["exp" := CTime (now + ACCESS_TOKEN_EXPIRE_MINUTES * 60)]> data).

(** [verify_token]: the payload, or 401 for a token the decoder refuses. *)
Definition verify_token (now : Z) (tok : token) : http_error + gmap string claim :=
  match jwt_decode now tok with
  | Some payload => inr payload
  | None => inl (HTTPException 401 "Invalid or expired token")
  end.

(** [require_role] for given [roles] returns [role_checker]: 403 unless the payload's
    [role], if any, is one of [roles]. *)
Definition role_checker (roles : list string) (payload : gmap string claim)
  : http_error + unit :=
  match payload !! "role" with
  | Some (CStr user_role) =>
    if decide (user_role ∈ roles) then inr tt
    else inl (HTTPException 403 ("Access denied: " +:+ tuple_repr roles +:+ " only."))
  | _ => inl (HTTPException 403 ("Access denied: " +:+ tuple_repr roles +:+ " only."))
  end.

(** The dependency chain of a protected route: the token is verified, then
    the role is checked. *)
Definition require_role (roles : list string) (now : Z) (tok : token)
  : http_error + unit :=
  match verify_token now tok with
  | inl e => inl e
  | inr payload => role_checker roles payload
  end.

(** [login]: 401 for credentials that do not authenticate, else a bearer
    token for the user's name and role. *)
Definition login (username password : string) (now : Z)
  : http_error + login_response token :=
  match authenticate_user username password with
  | None => inl (HTTPException 401 "Invalid username or password")
  | Some u =>
    inr (MkLoginResponse
           (create_access_token
              (<["role" := CStr (u_role u)]> (<["sub" := CStr (u_username u)]> ∅))
              now)
           "bearer")
  end.

End Auth.

(** ** What the committed transactions leave in the tables *)

Definition reserve_orders (oid wid : Z) (t : list order_row) : list order_row :=
  if decide (oid ∈ o_order_id <$> t)
  then (λ r, if decide (o_order_id r = oid) then with_status "reserved" r else r) <$> t
  else t ++ [OrderRow oid wid "reserved" None].

Definition decrement_all (wid : Z) (its : list Item) (t : list inventory_row)
  : list inventory_row :=
  foldl (λ t it, decrement_row (quantity it) (product_id it) wid <$> t) t its.

Definition upsert_all (oid : Z) (its : list Item) (t : list order_item_row)
  : list order_item_row :=
  foldl (λ t it, upsert_rows oid (product_id it) (quantity it) (price it) t) t its.

(** The ledger after the reservation transaction of [ev] has committed. *)
Definition reserve_db (ev : OrderEvent) (d : DB) : DB :=
  MkDB (reserve_orders (order_id ev) (warehouse_id ev) (orders d))
       (decrement_all (warehouse_id ev) (items ev) (inventory d))
       (upsert_all (order_id ev) (items ev) (order_items d))
       (invoice d).

(** The ledger after the first confirmation transaction has committed. *)
Definition confirm_db (env : Env) (oid : Z) (d : DB) : DB :=
  MkDB ((λ r, if decide (o_order_id r = oid) then with_status "confirmed" r else r)
          <$> orders d)
       (inventory d) (order_items d)
       (invoice d ++ [InvoiceRow oid (db_now env)]).

(** The total quantity an event asks of an inventory row: the quantities of
    all its items for the row's product, when the row is in the event's
    warehouse. *)
Definition sum_quantities (its : list Item) : Z :=
  foldr (λ it acc, quantity it + acc) 0 its.

Definition occurrences (pid : Z) (its : list Item) : list Item :=
  filter (λ it, product_id it = pid) its.

Definition requested (wid : Z) (its : list Item) (r : inventory_row) : Z :=
  if decide (inv_warehouse_id r = wid)
  then sum_quantities (occurrences (inv_product_id r) its)
  else 0.

(** The order item row an event's item is stored as. *)
Definition item_row (oid : Z) (it : Item) : order_item_row :=
  OrderItemRow oid (product_id it) (quantity it) (price it).

Definition rows_of_order (oid : Z) (d : DB) : list order_item_row :=
  filter (λ r, oi_order_id r = oid) (order_items d).

Definition order_rows (oid : Z) (d : DB) : list order_row :=
  filter (λ r, o_order_id r = oid) (orders d).

(** The world after a reservation that completed. *)
Definition reserved_world (ev : OrderEvent) (w : World) : World :=
  MkWorld (reserve_db ev (db w)) (invoices w)
          (order_confirmation_queue w ++ [confirmation_body (order_id ev)]).

(** The invoice a confirmation uploads, and the world after it completed. *)
Definition invoice_doc (env : Env) (oid : Z) (o : order_row)
    (lines : list (Z * Z * float * float)) (total : float) : invoice_pdf :=
  MkInvoicePDF oid (local_now env) oid (o_warehouse_id o) lines total.

(** The ledger after the second confirmation transaction has committed. *)
Definition invoice_blob_db (env : Env) (oid : Z) (d : DB) : DB :=
  set_orders
    ((λ r, if decide (o_order_id r = oid)
           then with_invoice_blob (blob_url env (blob_name oid)) r else r)
       <$> orders d) d.

Definition confirmed_world (env : Env) (oid : Z) (doc : invoice_pdf) (w : World)
  : World :=
  MkWorld (invoice_blob_db env oid (confirm_db env oid (db w)))
          (<[blob_name oid := doc]> (invoices w))
          (order_confirmation_queue w).

(** The row a table row ends as once every item of [its] has been upserted
    into a table that holds all their keys: the last item with the row's key
    overwrites it. *)
Definition final_row (oid : Z) (its : list Item) (r : order_item_row)
  : order_item_row :=
  match last (filter (λ it, (oid, product_id it) = item_key r) its) with
  | Some it => item_row oid it
  | None => r
  end.

(** The world a run ends in, whether it completed or raised. *)
Definition world_of {A} (r : res World A) : World :=
  match r with
  | Done _ w _ => w
  | Raised _ w => w
  end.

Section Deliveries.
Variable py_sum : list float → float.


End Deliveries.

Definition inventory_key (r : inventory_row) : Z * Z :=
  (inv_product_id r, inv_warehouse_id r).

(** A computation is fault-stable when a run that completes under some fault
    schedule completes in the same way under the schedule that never fails. *)
Definition fault_stable {S A} (m : Eff S A) : Prop :=
  ∀ s f a s' f', m s f = Done a s' f' → m s None = Done a s' None.

Create HintDb stable.

(** The claim's words for the invoice total, written without the handler's
    functions: the nearest binary64 number to an integer quantity, ties to
    even, and the sum of quantity times price over item rows in floating
    point, the products added one by one, left to right, from 0. *)
Definition nearest_float (n : Z) : float :=
  SF2Prim (binary_normalize prec emax n 0 false).

Definition float_total (rows : list order_item_row) : float :=
  foldl (λ acc r, (acc + nearest_float (oi_quantity r) * oi_price r)%float)
        0%float rows.

(** ** The spec's end-to-end scenario, as data *)

(** A ledger with stock of products 10 and 11 in warehouse 5 and no orders. *)
Definition stocked_db : DB :=
  MkDB [] [InventoryRow 10 5 100; InventoryRow 11 5 3] [] [].

Definition stocked_world : World := MkWorld stocked_db ∅ [].

(** [{"order_id":1,"warehouse_id":5,"items":[{"product_id":10,"quantity":2,"price":9.50}]}] *)
Definition scenario_A : OrderEvent := MkOrderEvent 1 5 [MkItem 10 2 9.5%float].

(** An event that names product 10 twice. *)
Definition twice_10 : OrderEvent :=
  MkOrderEvent 1 5 [MkItem 10 2 9.5%float; MkItem 10 3 1%float].

Definition scenario_env : Env := MkEnv 1700000000 1700000001 "https://store.example".

(** Bodies of confirmation messages: the JSON text [{"order_id": 1}], the same
    in the style of a Python dict, and a JSON text with an apostrophe inside
    a string. *)
Definition quoted (s : string) : string := String dquote s +:+ String dquote "".

Definition json_body : string := "{" +:+ quoted "order_id" +:+ ": 1}".

Definition dict_style_body : string := "{'order_id': 1}".

Definition apostrophe_body : string :=
  "{" +:+ quoted "order_id" +:+ ": 1, " +:+ quoted "note" +:+ ": "
      +:+ quoted "it's" +:+ "}".

(** ** The keys of the ledger *)

(** The primary keys of the schema: one row per order id in [orders], one row
    per (order, product) pair in [order_items]. *)
Definition ledger_keys_unique (d : DB) : Prop :=
  NoDup (o_order_id <$> orders d) ∧ NoDup (item_key <$> order_items d).

(** The (order, product) pairs an event upserts. *)
Definition event_keys (ev : OrderEvent) : list (Z * Z) :=
  (λ it, (order_id ev, product_id it)) <$> items ev.

(** The number of external operations of a reservation transaction: the
    connection, the lookup, the insert or update, one decrement and one upsert
    for each item, and the commit. *)
Definition reservation_cost (ev : OrderEvent) : nat :=
  (2 * length (items ev) + 4)%nat.

(** The world after the first confirmation block and the upload, before the
    second block. *)
Definition uploaded_world (env : Env) (oid : Z) (doc : invoice_pdf) (w : World)
  : World :=
  MkWorld (confirm_db env oid (db w)) (<[blob_name oid := doc]> (invoices w))
          (order_confirmation_queue w).

(** Stand-ins for the libraries of the credential surface, to run it on: a
    hash that is the password itself, and a token that is its payload, refused
    once its [exp] is past. *)
Definition plain_verify (p h : string) : bool := bool_decide (p = h).

Definition open_decode (now : Z) (tok : gmap string claim)
  : option (gmap string claim) :=
  match tok !! "exp" with
  | Some (CTime e) => if decide (now ≤ e) then Some tok else None
  | _ => Some tok
  end.
(** ** Runs that complete do not depend on the fault schedule *)

Lemma stable_ret {S A} (a : A) : fault_stable (mret a : Eff S A).
Proof. intros s f a' s' f' H. inversion H; subst. reflexivity. Qed.

Lemma stable_raise {S A} e : fault_stable (raise e : Eff S A).
Proof. intros s f a' s' f' H. discriminate H. Qed.

Lemma stable_tick {S} e : fault_stable (tick e : Eff S unit).
Proof.
  intros s [[|n]|] a s' f' H; simpl in *; try discriminate;
    inversion H; subst; reflexivity.
Qed.

Lemma stable_modify {S} (g : S → S) : fault_stable (modify g).
Proof. intros s f a s' f' H. inversion H; subst. reflexivity. Qed.

Lemma stable_lift {S A} (r : exn + A) : fault_stable (lift r : Eff S A).
Proof.
  intros s f a s' f' H. unfold lift in *. destruct r; [discriminate|].
  inversion H; subst. reflexivity.
Qed.

Lemma stable_run_stmt {A} (q : stmt A) : fault_stable (run_stmt q).
Proof.
  intros d f a d' f' H. unfold run_stmt in *.
  destruct (q d) as [e|[a0 d0]]; [discriminate|].
  inversion H; subst. reflexivity.
Qed.

Lemma stable_bind {S A B} (m : Eff S A) (k : A → Eff S B) :
  fault_stable m → (∀ a, fault_stable (k a)) → fault_stable (m ≫= k).
Proof.
  intros Hm Hk s f b s' f' H. unfold mbind, eff_bind in *.
  destruct (m s f) as [a s1 f1|e s1] eqn:E; [|discriminate].
  rewrite (Hm _ _ _ _ _ E). exact (Hk _ _ _ _ _ _ H).
Qed.

Lemma stable_execute {A} (q : stmt A) : fault_stable (execute q).
Proof.
  apply stable_bind; [apply stable_tick | intros; apply stable_run_stmt].
Qed.

Lemma stable_for_each {S A} (l : list A) (body : A → Eff S unit) :
  (∀ x, fault_stable (body x)) → fault_stable (for_each l body).
Proof.
  intros Hb. induction l as [|x l IH]; simpl.
  - apply stable_ret.
  - apply stable_bind; auto.
Qed.

Lemma stable_engine_begin {A} (body : Eff DB A) :
  fault_stable body → fault_stable (engine_begin body).
Proof.
  intros Hb w f a w' f' H. unfold engine_begin in *.
  destruct (tick OperationalError w f) as [[] w1 f1|e w1] eqn:E1; [|discriminate].
  rewrite (stable_tick _ _ _ _ _ _ E1).
  destruct (body (db w) f1) as [a1 d f2|e d] eqn:E2; [|discriminate].
  rewrite (Hb _ _ _ _ _ E2).
  destruct (tick OperationalError w f2) as [[] w3 f3|e w3] eqn:E3; [|discriminate].
  rewrite (stable_tick _ _ _ _ _ _ E3).
  inversion H; subst. reflexivity.
Qed.

#[global] Hint Resolve stable_ret stable_raise stable_tick stable_modify
  stable_lift stable_run_stmt stable_bind stable_execute stable_for_each
  stable_engine_begin : stable.

(** A transaction block is all or nothing: when it raises, the world is the
    one it started in. *)
Lemma engine_begin_raised {A} (body : Eff DB A) w f e w' :
  engine_begin body w f = Raised e w' → w' = w.
Proof.
  unfold engine_begin.
  destruct (tick OperationalError w f) as [[] w1 f1|e1 w1];
    [|intros H; inversion H; reflexivity].
  destruct (body (db w) f1) as [a1 d f2|e2 d];
    [|intros H; inversion H; reflexivity].
  destruct (tick OperationalError w f2) as [[] w3 f3|e3 w3];
    intros H; inversion H; reflexivity.
Qed.

(** When it completes, the whole body ran and its view is what is stored. *)
Lemma engine_begin_done {A} (body : Eff DB A) w f a w' f' :
  engine_begin body w f = Done a w' f' →
  ∃ d f1 f2, body (db w) f1 = Done a d f2 ∧ w' = set_db d w.
Proof.
  unfold engine_begin.
  destruct (tick OperationalError w f) as [[] w1 f1|e1 w1]; [|discriminate].
  destruct (body (db w) f1) as [a1 d f2|e2 d] eqn:E; [|discriminate].
  destruct (tick OperationalError w f2) as [[] w3 f3|e3 w3]; [|discriminate].
  intros H; inversion H; subst. eauto.
Qed.

(** ** The handlers when nothing fails *)

Lemma execute_None {A} (q : stmt A) d : execute q d None = run_stmt q d None.
Proof. reflexivity. Qed.

Lemma for_each_execute_None {A} (q : A → stmt unit) (g : A → DB → DB) l d :
  (∀ x d, q x d = inr (tt, g x d)) →
  for_each l (λ x, execute (q x)) d None = Done tt (foldl (λ d x, g x d) d l) None.
Proof.
  intros Hq. revert d. induction l as [|x l IH]; intros d; simpl; [reflexivity|].
  unfold mbind, eff_bind. rewrite execute_None. unfold run_stmt.
  rewrite Hq. apply IH.
Qed.

Lemma foldl_set_inventory {A} (g : A → list inventory_row → list inventory_row) l d :
  foldl (λ d x, set_inventory (g x (inventory d)) d) d l
  = set_inventory (foldl (λ t x, g x t) (inventory d) l) d.
Proof.
  revert d. induction l as [|x l IH]; intros d; simpl.
  - destruct d; reflexivity.
  - rewrite IH. destruct d; reflexivity.
Qed.

Lemma foldl_set_order_items {A}
    (g : A → list order_item_row → list order_item_row) l d :
  foldl (λ d x, set_order_items (g x (order_items d)) d) d l
  = set_order_items (foldl (λ t x, g x t) (order_items d) l) d.
Proof.
  revert d. induction l as [|x l IH]; intros d; simpl.
  - destruct d; reflexivity.
  - rewrite IH. destruct d; reflexivity.
Qed.

Lemma head_filter_order_None oid (t : list order_row) :
  head (filter (λ r, o_order_id r = oid) t) = None ↔ oid ∉ o_order_id <$> t.
Proof.
  induction t as [|r t IH]; simpl.
  - split; [intros _; apply not_elem_of_nil | reflexivity].
  - rewrite filter_cons. destruct (decide (o_order_id r = oid)) as [E|E]; simpl.
    + split; [discriminate|]. intros H. exfalso. apply H. rewrite <- E. left.
    + rewrite IH. rewrite not_elem_of_cons. intuition congruence.
Qed.

Lemma process_order_tx_None ev d :
  process_order_tx ev d None = Done tt (reserve_db ev d) None.
Proof.
  unfold process_order_tx, mbind, eff_bind.
  rewrite execute_None. unfold run_stmt, select_order_id.
  pose proof (head_filter_order_None (order_id ev) (orders d)) as Hh.
  assert (Hdb : ∀ o, foldl (λ d x, set_order_items
             (upsert_rows (order_id ev) (product_id x) (quantity x) (price x)
                (order_items d)) d)
           (foldl (λ d x, set_inventory
              (decrement_row (quantity x) (product_id x) (warehouse_id ev)
                 <$> inventory d) d) (set_orders o d) (items ev)) (items ev)
          = MkDB o (decrement_all (warehouse_id ev) (items ev) (inventory d))
              (upsert_all (order_id ev) (items ev) (order_items d)) (invoice d)).
  { intros o.
    rewrite (foldl_set_order_items
      (λ x t, upsert_rows (order_id ev) (product_id x) (quantity x) (price x) t)).
    rewrite (foldl_set_inventory
      (λ x t, decrement_row (quantity x) (product_id x) (warehouse_id ev) <$> t)).
    reflexivity. }
  destruct (head (filter (λ r, o_order_id r = order_id ev) (orders d)))
    as [r|] eqn:E; simpl.
  - assert (Hin : order_id ev ∈ o_order_id <$> orders d).
    { destruct (decide (order_id ev ∈ o_order_id <$> orders d)) as [?|Hn]; [done|].
      apply Hh in Hn. discriminate Hn. }
    rewrite (for_each_execute_None _
      (λ x d, set_inventory (decrement_row (quantity x) (product_id x)
                               (warehouse_id ev) <$> inventory d) d)) by reflexivity.
    rewrite (for_each_execute_None _
      (λ x d, set_order_items (upsert_rows (order_id ev) (product_id x)
                                 (quantity x) (price x) (order_items d)) d))
      by reflexivity.
    rewrite Hdb. unfold reserve_db, reserve_orders.
    rewrite decide_True by exact Hin. reflexivity.
  - assert (Hn : order_id ev ∉ o_order_id <$> orders d) by (apply Hh; reflexivity).
    rewrite execute_None. unfold run_stmt, insert_order.
    rewrite decide_False by exact Hn.
    rewrite (for_each_execute_None _
      (λ x d, set_inventory (decrement_row (quantity x) (product_id x)
                               (warehouse_id ev) <$> inventory d) d)) by reflexivity.
    rewrite (for_each_execute_None _
      (λ x d, set_order_items (upsert_rows (order_id ev) (product_id x)
                                 (quantity x) (price x) (order_items d)) d))
      by reflexivity.
    rewrite Hdb. unfold reserve_db, reserve_orders.
    rewrite decide_False by exact Hn. reflexivity.
Qed.

Lemma stable_process_order_tx ev : fault_stable (process_order_tx ev).
Proof.
  unfold process_order_tx.
  apply stable_bind; [apply stable_execute|]. intros existing.
  apply stable_bind; [destruct existing; apply stable_execute|]. intros _.
  apply stable_bind; intros; apply stable_for_each; intros; apply stable_execute.
Qed.

Lemma stable_process_order_event ev : fault_stable (process_order_event ev).
Proof.
  unfold process_order_event, send_to_confirmation_queue.
  auto 6 using stable_process_order_tx with stable.
Qed.

Lemma process_order_event_None ev w :
  process_order_event ev w None = Done tt (reserved_world ev w) None.
Proof.
  unfold process_order_event, mbind, eff_bind, engine_begin. simpl.
  rewrite process_order_tx_None. reflexivity.
Qed.

(** A reservation that completes leaves exactly [reserved_world]. *)
Lemma process_order_event_done ev w f u w' f' :
  process_order_event ev w f = Done u w' f' → w' = reserved_world ev w.
Proof.
  intros H. apply stable_process_order_event in H.
  rewrite process_order_event_None in H. inversion H; reflexivity.
Qed.

Section ConfirmRuns.
Variable py_sum : list float → float.
Variable env : Env.

Lemma stable_confirm_order_tx oid : fault_stable (confirm_order_tx py_sum env oid).
Proof.
  unfold confirm_order_tx.
  apply stable_bind; [apply stable_execute|]. intros [o|]; [|apply stable_ret].
  apply stable_bind; [apply stable_execute|]. intros _.
  apply stable_bind; [apply stable_execute|]. intros rows.
  apply stable_bind; [apply stable_lift|]. intros products.
  apply stable_bind; [apply stable_execute|]. intros _. apply stable_ret.
Qed.

Lemma stable_publish_invoice oid found : fault_stable (publish_invoice env oid found).
Proof.
  unfold publish_invoice. destruct found as [[[o rows] total]|]; [|apply stable_ret].
  apply stable_bind; [apply stable_lift|]. intros lines.
  apply stable_bind.
  - unfold upload_blob. apply stable_bind; [apply stable_tick|].
    intros; apply stable_modify.
  - intros _. apply stable_engine_begin. apply stable_execute.
Qed.

Lemma stable_confirm_order_event oid :
  fault_stable (confirm_order_event py_sum env oid).
Proof.
  unfold confirm_order_event.
  apply stable_bind; [apply stable_engine_begin, stable_confirm_order_tx|].
  intros found. apply stable_publish_invoice.
Qed.

(** The first block when nothing fails, by what the lookup finds. *)
Lemma confirm_order_tx_None oid d :
  confirm_order_tx py_sum env oid d None =
  match head (order_rows oid d) with
  | None => Done None d None
  | Some o =>
    match line_totals (rows_of_order oid d) with
    | inl e =>
      Raised e (set_orders
        ((λ r, if decide (o_order_id r = oid) then with_status "confirmed" r else r)
           <$> orders d) d)
    | inr products =>
      Done (Some (o, rows_of_order oid d, py_sum products)) (confirm_db env oid d) None
    end
  end.
Proof.
  unfold confirm_order_tx, mbind, eff_bind.
  rewrite execute_None. unfold run_stmt, select_order, order_rows.
  destruct (head (filter (λ r, o_order_id r = oid) (orders d))) as [o|]; [|reflexivity].
  simpl. unfold lift, rows_of_order. simpl.
  destruct (line_totals (filter (λ r, oi_order_id r = oid) (order_items d)));
    reflexivity.
Qed.

Lemma pdf_rows_of_line_totals rows xs :
  line_totals rows = inr xs →
  ∃ lines, pdf_rows rows = inr lines ∧ snd <$> lines = xs ∧
           (λ l, (l.1.1.1, l.1.1.2, l.1.2)) <$> lines
           = (λ r, (oi_product_id r, oi_quantity r, oi_price r)) <$> rows.
Proof.
  revert xs. induction rows as [|r rows IH]; intros xs H; simpl in *.
  - inversion H; subst. exists []. auto.
  - destruct (line_total (oi_quantity r) (oi_price r)) as [e|x]; [discriminate|].
    destruct (line_totals rows) as [e|xs']; [discriminate|].
    inversion H; subst. destruct (IH xs' eq_refl) as (lines & -> & <- & E).
    eexists. split; [reflexivity|]. split; [reflexivity|].
    rewrite !fmap_cons. f_equal. exact E.
Qed.

(** A confirmation that completes either found no order and changed nothing,
    or committed both blocks around the upload. *)
Lemma confirm_order_event_done oid w f u w' f' :
  confirm_order_event py_sum env oid w f = Done u w' f' →
  match head (order_rows oid (db w)) with
  | None => w' = w
  | Some o =>
    ∃ products lines,
      line_totals (rows_of_order oid (db w)) = inr products ∧
      pdf_rows (rows_of_order oid (db w)) = inr lines ∧
      snd <$> lines = products ∧
      w' = confirmed_world env oid
             (invoice_doc env oid o lines (py_sum products)) w
  end.
Proof.
  intros H. apply stable_confirm_order_event in H. revert H.
  unfold confirm_order_event, mbind, eff_bind, engine_begin. simpl.
  rewrite confirm_order_tx_None.
  destruct (head (order_rows oid (db w))) as [o|].
  - destruct (line_totals (rows_of_order oid (db w))) as [e|products] eqn:E;
      [discriminate|].
    destruct (pdf_rows_of_line_totals _ _ E) as (lines & Hl & Hs & _).
    simpl. unfold lift. rewrite Hl. simpl.
    intros H. inversion H; subst. exists (snd <$> lines), lines.
    repeat split; auto.
  - simpl. intros H. inversion H; subst. destruct w; reflexivity.
Qed.

End ConfirmRuns.

(** ** The inventory after the decrements *)

Lemma fmap_ext_all {A B} (f g : A → B) (l : list A) :
  (∀ x, f x = g x) → f <$> l = g <$> l.
Proof.
  intros H. induction l as [|x l IH]; [reflexivity|].
  rewrite !fmap_cons, H, IH. reflexivity.
Qed.

Lemma decrement_all_spec wid its (t : list inventory_row) :
  decrement_all wid its t =
  (λ r, InventoryRow (inv_product_id r) (inv_warehouse_id r)
          (inv_quantity r - requested wid its r)) <$> t.
Proof.
  unfold decrement_all. revert t. induction its as [|it its IH]; intros t; simpl.
  - rewrite <- (list_fmap_id t) at 1. apply fmap_ext_all. intros [p w q].
    unfold requested; simpl. destruct (decide (w = wid)); f_equal; lia.
  - rewrite IH, <- list_fmap_compose. apply fmap_ext_all. intros [p w q].
    unfold requested, occurrences, decrement_row, compose; simpl.
    rewrite filter_cons.
    destruct (decide (p = product_id it ∧ w = wid)) as [[-> ->]|Hn]; simpl.
    + rewrite !decide_True by reflexivity. simpl. f_equal. lia.
    + destruct (decide (w = wid)) as [->|]; [|reflexivity].
      rewrite decide_False by (intros E; apply Hn; split; congruence).
      reflexivity.
Qed.

(** Row by row: a reservation that completes changes the quantity of every
    inventory row by what the event asks of it, and nothing else. *)
Lemma reserve_inventory_lookup ev d i r :
  inventory d !! i = Some r →
  inventory (reserve_db ev d) !! i
  = Some (InventoryRow (inv_product_id r) (inv_warehouse_id r)
            (inv_quantity r - requested (warehouse_id ev) (items ev) r)).
Proof.
  intros H. simpl. rewrite decrement_all_spec, list_lookup_fmap, H. reflexivity.
Qed.

(** ** The order rows after the upsert *)

Lemma filter_fmap_if_same {A} (P : A → Prop) `{∀ x, Decision (P x)}
    (g : A → A) (l : list A) :
  (∀ x, P (g x) ↔ P x) →
  filter P ((λ r, if decide (P r) then g r else r) <$> l) = g <$> filter P l.
Proof.
  intros Hg. induction l as [|x l IH]; [reflexivity|].
  rewrite fmap_cons, !filter_cons. destruct (decide (P x)) as [Hx|Hx].
  - rewrite decide_True by (by apply Hg). rewrite fmap_cons, IH. reflexivity.
  - rewrite decide_False by exact Hx. exact IH.
Qed.

Lemma filter_fmap_if_other {A} (P Q : A → Prop) `{∀ x, Decision (P x)}
    `{∀ x, Decision (Q x)} (g : A → A) (l : list A) :
  (∀ x, P x → ¬ Q x) → (∀ x, P x → ¬ Q (g x)) →
  filter Q ((λ r, if decide (P r) then g r else r) <$> l) = filter Q l.
Proof.
  intros H1 H2. induction l as [|x l IH]; [reflexivity|].
  rewrite fmap_cons, !filter_cons. destruct (decide (P x)) as [Hx|Hx].
  - rewrite !decide_False by auto. exact IH.
  - rewrite IH. reflexivity.
Qed.

Lemma order_rows_nil oid d : oid ∉ o_order_id <$> orders d → order_rows oid d = [].
Proof.
  unfold order_rows. intros Hn. induction (orders d) as [|r t IH]; [reflexivity|].
  rewrite fmap_cons, not_elem_of_cons in Hn. destruct Hn as [Hne Hn].
  rewrite filter_cons_False by congruence. auto.
Qed.

Lemma order_rows_reserve ev d :
  order_rows (order_id ev) (reserve_db ev d) =
  if decide (order_id ev ∈ o_order_id <$> orders d)
  then with_status "reserved" <$> order_rows (order_id ev) d
  else [OrderRow (order_id ev) (warehouse_id ev) "reserved" None].
Proof.
  unfold order_rows, reserve_db, reserve_orders; simpl.
  destruct (decide (order_id ev ∈ o_order_id <$> orders d)) as [Hin|Hn].
  - apply (filter_fmap_if_same (λ r, o_order_id r = order_id ev)). reflexivity.
  - rewrite filter_app, filter_cons_True, filter_nil by reflexivity.
    fold (order_rows (order_id ev) d). rewrite order_rows_nil by exact Hn.
    reflexivity.
Qed.

Lemma order_rows_reserve_other ev d oid :
  oid ≠ order_id ev →
  order_rows oid (reserve_db ev d) = order_rows oid d.
Proof.
  intros Hne. unfold order_rows, reserve_db, reserve_orders; simpl.
  destruct (decide (order_id ev ∈ o_order_id <$> orders d)) as [Hin|Hn].
  - apply (filter_fmap_if_other (λ r, o_order_id r = order_id ev)
             (λ r, o_order_id r = oid)); simpl; congruence.
  - rewrite filter_app, filter_cons_False, filter_nil, app_nil_r by (simpl; congruence).
    reflexivity.
Qed.

Lemma order_rows_nonempty oid d :
  oid ∈ o_order_id <$> orders d → order_rows oid d ≠ [].
Proof.
  intros Hin E. apply list_elem_of_fmap in Hin as (r & -> & Hr).
  assert (r ∈ order_rows (o_order_id r) d) as Hr'
    by (apply list_elem_of_filter; auto).
  rewrite E in Hr'. by apply elem_of_nil in Hr'.
Qed.

(** ** The order items after the upserts *)

Lemma overwrite_item_key oid pid q p r :
  item_key (overwrite_item oid pid q p r) = item_key r.
Proof.
  unfold overwrite_item. destruct (decide _) as [E|]; [rewrite E|]; reflexivity.
Qed.

Lemma upsert_rows_keys oid pid q p t :
  item_key <$> upsert_rows oid pid q p t =
  if decide ((oid, pid) ∈ item_key <$> t) then item_key <$> t
  else (item_key <$> t) ++ [(oid, pid)].
Proof.
  unfold upsert_rows. destruct (decide _).
  - rewrite <- list_fmap_compose. apply fmap_ext_all. intros r.
    apply overwrite_item_key.
  - rewrite fmap_app. reflexivity.
Qed.

Lemma upsert_rows_NoDup oid pid q p t :
  NoDup (item_key <$> t) → NoDup (item_key <$> upsert_rows oid pid q p t).
Proof.
  rewrite upsert_rows_keys. destruct (decide _) as [|Hn]; [auto|].
  intros Hnd. apply NoDup_app. split; [exact Hnd|]. split; [|apply NoDup_singleton].
  intros x Hx Hx'. apply list_elem_of_singleton in Hx'. subst. auto.
Qed.

Lemma upsert_rows_key_in oid pid q p t :
  (oid, pid) ∈ item_key <$> upsert_rows oid pid q p t.
Proof.
  rewrite upsert_rows_keys. destruct (decide _); [assumption|].
  apply elem_of_app. right. apply list_elem_of_singleton. reflexivity.
Qed.

Lemma upsert_rows_keys_mono oid pid q p t k :
  k ∈ item_key <$> t → k ∈ item_key <$> upsert_rows oid pid q p t.
Proof.
  rewrite upsert_rows_keys. destruct (decide _); [auto|].
  intros. apply elem_of_app. auto.
Qed.

Lemma filter_key_absent k (t : list order_item_row) :
  k ∉ item_key <$> t → filter (λ r, item_key r = k) t = [].
Proof.
  induction t as [|r t IH]; [reflexivity|].
  rewrite fmap_cons, not_elem_of_cons. intros [Hne Hn].
  rewrite filter_cons_False by congruence. auto.
Qed.

Lemma filter_key_overwrite oid pid q p t :
  NoDup (item_key <$> t) → (oid, pid) ∈ item_key <$> t →
  filter (λ r, item_key r = (oid, pid)) (overwrite_item oid pid q p <$> t)
  = [OrderItemRow oid pid q p].
Proof.
  induction t as [|r t IH]; intros Hnd Hin.
  - by apply elem_of_nil in Hin.
  - rewrite fmap_cons in Hnd, Hin. apply NoDup_cons in Hnd as [Hr Hnd].
    rewrite fmap_cons. unfold overwrite_item at 1.
    destruct (decide (item_key r = (oid, pid))) as [E|E].
    + rewrite filter_cons_True by reflexivity. f_equal.
      apply filter_key_absent. rewrite E in Hr.
      intros Hin'. apply Hr. apply list_elem_of_fmap in Hin' as (r' & Hk & Hr').
      apply list_elem_of_fmap in Hr' as (r0 & -> & Hr0).
      rewrite overwrite_item_key in Hk. rewrite Hk.
      apply list_elem_of_fmap_2. exact Hr0.
    + rewrite filter_cons_False by exact E. apply IH; [exact Hnd|].
      apply elem_of_cons in Hin as [Hin|Hin]; [congruence | exact Hin].
Qed.

Lemma upsert_rows_filter_same oid pid q p t :
  NoDup (item_key <$> t) →
  filter (λ r, item_key r = (oid, pid)) (upsert_rows oid pid q p t)
  = [OrderItemRow oid pid q p].
Proof.
  intros Hnd. unfold upsert_rows. destruct (decide _) as [Hin|Hn].
  - by apply filter_key_overwrite.
  - rewrite filter_app, filter_key_absent by exact Hn.
    rewrite filter_cons_True by reflexivity. reflexivity.
Qed.

Lemma upsert_rows_filter_other oid pid q p t k :
  k ≠ (oid, pid) →
  filter (λ r, item_key r = k) (upsert_rows oid pid q p t)
  = filter (λ r, item_key r = k) t.
Proof.
  intros Hne. unfold upsert_rows. destruct (decide _) as [Hin|Hn].
  - apply (filter_fmap_if_other (λ r, item_key r = (oid, pid))
             (λ r, item_key r = k) (λ _, OrderItemRow oid pid q p));
      intros x Hx Hq; unfold item_key in *; simpl in *; congruence.
  - rewrite filter_app, filter_cons_False, filter_nil, app_nil_r
      by (unfold item_key; simpl; congruence).
    reflexivity.
Qed.

Lemma upsert_all_snoc oid its it t :
  upsert_all oid (its ++ [it]) t
  = upsert_rows oid (product_id it) (quantity it) (price it) (upsert_all oid its t).
Proof. unfold upsert_all. rewrite foldl_app. reflexivity. Qed.

Lemma upsert_all_NoDup oid its t :
  NoDup (item_key <$> t) → NoDup (item_key <$> upsert_all oid its t).
Proof.
  intros Hnd. induction its as [|it its IH] using rev_ind; [exact Hnd|].
  rewrite upsert_all_snoc. by apply upsert_rows_NoDup.
Qed.

Lemma occurrences_snoc p its it :
  occurrences p (its ++ [it])
  = occurrences p its ++ (if decide (product_id it = p) then [it] else []).
Proof.
  unfold occurrences. rewrite filter_app, filter_cons, filter_nil. reflexivity.
Qed.

(** With a unique key, the rows of one (order, product) pair after the
    upserts: the last item for that product, or what was there. *)
Lemma upsert_all_filter oid its t p :
  NoDup (item_key <$> t) →
  filter (λ r, item_key r = (oid, p)) (upsert_all oid its t) =
  match last (occurrences p its) with
  | Some it => [item_row oid it]
  | None => filter (λ r, item_key r = (oid, p)) t
  end.
Proof.
  intros Hnd. induction its as [|it its IH] using rev_ind; [reflexivity|].
  rewrite upsert_all_snoc, occurrences_snoc.
  destruct (decide (product_id it = p)) as [<-|Hne].
  - rewrite last_snoc. apply upsert_rows_filter_same. by apply upsert_all_NoDup.
  - rewrite app_nil_r, upsert_rows_filter_other by congruence. exact IH.
Qed.

Lemma upsert_all_keys_present oid its t it :
  it ∈ its → (oid, product_id it) ∈ item_key <$> upsert_all oid its t.
Proof.
  induction its as [|x its IH] using rev_ind; intros Hin.
  - by apply elem_of_nil in Hin.
  - rewrite upsert_all_snoc. apply elem_of_app in Hin as [Hin|Hin].
    + apply upsert_rows_keys_mono. auto.
    + apply list_elem_of_singleton in Hin. subst. apply upsert_rows_key_in.
Qed.

Lemma final_row_key oid its r : item_key (final_row oid its r) = item_key r.
Proof.
  unfold final_row.
  destruct (last (filter (λ it, (oid, product_id it) = item_key r) its))
    as [it|] eqn:E; [|reflexivity].
  apply last_Some in E as [l' E].
  assert (it ∈ filter (λ it, (oid, product_id it) = item_key r) its) as Hin.
  { rewrite E. apply elem_of_app. right. by apply list_elem_of_singleton. }
  apply list_elem_of_filter in Hin as [Hk _]. rewrite <- Hk. reflexivity.
Qed.

Lemma final_row_snoc oid its it r :
  final_row oid (its ++ [it]) r
  = overwrite_item oid (product_id it) (quantity it) (price it) (final_row oid its r).
Proof.
  unfold overwrite_item. rewrite final_row_key. unfold final_row at 1.
  rewrite filter_app, filter_cons, filter_nil.
  destruct (decide ((oid, product_id it) = item_key r)) as [E|E].
  - rewrite last_snoc. rewrite decide_True by congruence. reflexivity.
  - rewrite app_nil_r. rewrite decide_False by congruence. reflexivity.
Qed.

Lemma fmap_fixed {A} (f : A → A) (l : list A) :
  (∀ x, x ∈ l → f x = x) → f <$> l = l.
Proof.
  induction l as [|x l IH]; intros H; [reflexivity|].
  rewrite fmap_cons, H, IH; [reflexivity| |left].
  intros y Hy. apply H. by right.
Qed.

(** On a table that holds every item's key the upserts only overwrite. *)
Lemma upsert_all_present oid its t :
  (∀ it, it ∈ its → (oid, product_id it) ∈ item_key <$> t) →
  upsert_all oid its t = final_row oid its <$> t.
Proof.
  induction its as [|it its IH] using rev_ind; intros Hk.
  - symmetry. apply fmap_fixed. reflexivity.
  - rewrite upsert_all_snoc, IH by (intros; apply Hk, elem_of_app; auto).
    unfold upsert_rows. rewrite decide_True.
    + rewrite <- list_fmap_compose. apply fmap_ext_all. intros r.
      symmetry. apply final_row_snoc.
    + rewrite <- list_fmap_compose.
      rewrite (fmap_ext_all (item_key ∘ final_row oid its) item_key)
        by (intros; apply final_row_key).
      apply Hk, elem_of_app. right. by apply list_elem_of_singleton.
Qed.

Lemma upsert_all_fixed oid its t r :
  r ∈ upsert_all oid its t → final_row oid its r = r.
Proof.
  revert r. induction its as [|it its IH] using rev_ind; intros r Hr; [reflexivity|].
  rewrite upsert_all_snoc in Hr. rewrite final_row_snoc.
  unfold upsert_rows in Hr. destruct (decide _) as [Hin|Hn].
  - apply list_elem_of_fmap in Hr as (r0 & -> & Hr0).
    destruct (decide (item_key r0 = (oid, product_id it))) as [E|E].
    + assert (overwrite_item oid (product_id it) (quantity it) (price it) r0
              = item_row oid it) as ->
        by (unfold overwrite_item; rewrite decide_True by exact E; reflexivity).
      unfold overwrite_item. rewrite final_row_key.
      rewrite decide_True by reflexivity. reflexivity.
    + assert (overwrite_item oid (product_id it) (quantity it) (price it) r0
              = r0) as Hr
        by (unfold overwrite_item; rewrite decide_False by exact E; reflexivity).
      rewrite Hr, (IH _ Hr0). exact Hr.
  - apply elem_of_app in Hr as [Hr|Hr].
    + rewrite (IH _ Hr). unfold overwrite_item. rewrite decide_False; [reflexivity|].
      intros E. apply Hn. rewrite <- E. by apply list_elem_of_fmap_2.
    + apply list_elem_of_singleton in Hr. subst r.
      unfold overwrite_item. rewrite final_row_key.
      rewrite decide_True by reflexivity. reflexivity.
Qed.

(** Upserting the same items a second time changes nothing. *)
Lemma upsert_all_idem oid its t :
  upsert_all oid its (upsert_all oid its t) = upsert_all oid its t.
Proof.
  rewrite upsert_all_present by (intros; by apply upsert_all_keys_present).
  apply fmap_fixed. intros r. apply upsert_all_fixed.
Qed.

(** ** The reservation handler's postcondition *)

Lemma occurrences_NoDup its it :
  NoDup (product_id <$> its) → it ∈ its → occurrences (product_id it) its = [it].
Proof.
  unfold occurrences. induction its as [|x its IH]; intros Hnd Hin.
  - by apply elem_of_nil in Hin.
  - rewrite fmap_cons in Hnd. apply NoDup_cons in Hnd as [Hx Hnd].
    assert (Hnone : ∀ l : list Item, product_id x ∉ product_id <$> l →
               filter (λ it, product_id it = product_id x) l = []).
    { intros l. induction l as [|y l IHl]; [reflexivity|].
      rewrite fmap_cons, not_elem_of_cons. intros [Hne Hn].
      rewrite filter_cons_False by congruence. auto. }
    apply elem_of_cons in Hin as [->|Hin].
    + rewrite filter_cons_True by reflexivity. rewrite Hnone by exact Hx. reflexivity.
    + rewrite filter_cons_False; [by apply IH|].
      intros E. apply Hx. rewrite E. by apply list_elem_of_fmap_2.
Qed.

Lemma order_rows_reserved ev d :
  order_rows (order_id ev) (reserve_db ev d) ≠ [] ∧
  ∀ o, o ∈ order_rows (order_id ev) (reserve_db ev d) → o_status o = "reserved".
Proof.
  rewrite order_rows_reserve.
  destruct (decide (order_id ev ∈ o_order_id <$> orders d)) as [Hin|Hn].
  - split.
    + intros E. apply fmap_nil_inv in E. by apply (order_rows_nonempty _ _ Hin).
    + intros o Ho. apply list_elem_of_fmap in Ho as (r & -> & _). reflexivity.
  - split; [discriminate|].
    intros o Ho. apply list_elem_of_singleton in Ho. subst. reflexivity.
Qed.

Lemma rows_of_order_key oid p (t : list order_item_row) :
  filter (λ r, item_key r = (oid, p)) t
  = filter (λ r, oi_product_id r = p) (filter (λ r, oi_order_id r = oid) t).
Proof.
  rewrite list_filter_filter. apply list_filter_iff. intros r.
  unfold item_key. split; [intros E; inversion E; auto | intros [-> ->]; auto].
Qed.

(** The products of an order's rows after the upserts are the event's, when
    the order had rows for none but these. *)
Lemma upsert_all_products oid its t p :
  NoDup (item_key <$> t) →
  (∀ r, r ∈ filter (λ r, oi_order_id r = oid) t →
        oi_product_id r ∈ product_id <$> its) →
  p ∈ oi_product_id <$> filter (λ r, oi_order_id r = oid) (upsert_all oid its t)
  ↔ p ∈ product_id <$> its.
Proof.
  intros Hnd Hold. pose proof (upsert_all_filter oid its t p Hnd) as Hf.
  split.
  - intros Hp. apply list_elem_of_fmap in Hp as (r & -> & Hr).
    assert (r ∈ filter (λ r0, item_key r0 = (oid, oi_product_id r))
                  (upsert_all oid its t)) as Hr'.
    { apply list_elem_of_filter in Hr as [Ho Hr].
      apply list_elem_of_filter. split; [|exact Hr].
      unfold item_key. by rewrite Ho. }
    rewrite Hf in Hr'.
    destruct (last (occurrences (oi_product_id r) its)) as [it|] eqn:E.
    + apply last_Some in E as [l' E].
      assert (it ∈ occurrences (oi_product_id r) its) as Hit
        by (rewrite E; apply elem_of_app; right; by apply list_elem_of_singleton).
      apply list_elem_of_filter in Hit as [<- Hit]. by apply list_elem_of_fmap_2.
    + apply Hold. apply list_elem_of_filter in Hr' as [Hk Hr'].
      apply list_elem_of_filter. split; [|exact Hr'].
      unfold item_key in Hk. by inversion Hk.
  - intros Hp. apply list_elem_of_fmap in Hp as (it & -> & Hit).
    destruct (last (occurrences (product_id it) its)) as [it'|] eqn:E.
    + assert (item_row oid it' ∈ filter (λ r, item_key r = (oid, product_id it))
                (upsert_all oid its t)) as Hr
        by (rewrite Hf; by apply list_elem_of_singleton).
      apply last_Some in E as [l' E].
      assert (it' ∈ occurrences (product_id it) its) as Hit'
        by (rewrite E; apply elem_of_app; right; by apply list_elem_of_singleton).
      apply list_elem_of_filter in Hit' as [Hp' _].
      apply list_elem_of_filter in Hr as [_ Hr].
      apply list_elem_of_fmap. exists (item_row oid it'). split; [by rewrite <- Hp'|].
      apply list_elem_of_filter. split; [reflexivity | exact Hr].
    + apply last_None in E.
      assert (it ∈ occurrences (product_id it) its) as Hit'
        by (apply list_elem_of_filter; auto).
      rewrite E in Hit'. by apply elem_of_nil in Hit'.
Qed.

Lemma NoDup_products_of_order oid (t : list order_item_row) :
  NoDup (item_key <$> t) →
  NoDup (oi_product_id <$> filter (λ r, oi_order_id r = oid) t).
Proof.
  induction t as [|r t IH]; intros Hnd; [apply NoDup_nil_2|].
  rewrite fmap_cons in Hnd. apply NoDup_cons in Hnd as [Hr Hnd].
  rewrite filter_cons. destruct (decide (oi_order_id r = oid)) as [E|E]; [|auto].
  rewrite fmap_cons. apply NoDup_cons. split; [|auto].
  intros Hin. apply Hr. apply list_elem_of_fmap in Hin as (r' & Hp & Hr').
  apply list_elem_of_filter in Hr' as [Ho Hr'].
  apply list_elem_of_fmap. exists r'. split; [|exact Hr'].
  unfold item_key. congruence.
Qed.

(** C1, as the code has it.  An event with N items of pairwise distinct
    products, processed to completion on a ledger whose order items have a
    unique (order, product) key and hold no row of this order for a product
    outside the event, leaves: the order's row, with status reserved; exactly
    N order item rows for the order, one for each item with its quantity and
    price; and every inventory row an item refers to at its earlier quantity
    minus the item's, whatever the sign. *)
Theorem reservation_postcondition ev w f w' f' :
  NoDup (product_id <$> items ev) →
  NoDup (item_key <$> order_items (db w)) →
  (∀ r, r ∈ rows_of_order (order_id ev) (db w) →
        oi_product_id r ∈ product_id <$> items ev) →
  process_order_event ev w f = Done tt w' f' →
  (order_rows (order_id ev) (db w') ≠ [] ∧
   ∀ o, o ∈ order_rows (order_id ev) (db w') → o_status o = "reserved") ∧
  (length (rows_of_order (order_id ev) (db w')) = length (items ev) ∧
   ∀ it, it ∈ items ev →
         item_row (order_id ev) it ∈ rows_of_order (order_id ev) (db w')) ∧
  (∀ it i r, it ∈ items ev → inventory (db w) !! i = Some r →
     inv_product_id r = product_id it → inv_warehouse_id r = warehouse_id ev →
     inventory (db w') !! i
     = Some (InventoryRow (product_id it) (warehouse_id ev)
               (inv_quantity r - quantity it))).
Proof.
  intros Hits Hkeys Hold Hrun. apply process_order_event_done in Hrun. subst w'.
  split; [apply order_rows_reserved|]. split; [split|].
  - unfold rows_of_order; simpl.
    rewrite <- (length_fmap oi_product_id), <- (length_fmap product_id (items ev)).
    apply Permutation_length, NoDup_Permutation.
    + apply NoDup_products_of_order. by apply upsert_all_NoDup.
    + exact Hits.
    + intros p. by apply upsert_all_products.
  - intros it Hit. unfold rows_of_order; simpl.
    pose proof (upsert_all_filter (order_id ev) (items ev) (order_items (db w))
                  (product_id it) Hkeys) as Hf.
    rewrite (occurrences_NoDup _ _ Hits Hit) in Hf. simpl in Hf.
    assert (item_row (order_id ev) it ∈
            filter (λ r, item_key r = (order_id ev, product_id it))
              (upsert_all (order_id ev) (items ev) (order_items (db w)))) as Hr
      by (rewrite Hf; by apply list_elem_of_singleton).
    apply list_elem_of_filter in Hr as [_ Hr].
    apply list_elem_of_filter. split; [reflexivity | exact Hr].
  - intros it i r Hit Hr Hp Hw. simpl db.
    rewrite (reserve_inventory_lookup ev _ i r Hr). f_equal.
    unfold requested. rewrite decide_True by exact Hw.
    rewrite Hp, (occurrences_NoDup _ _ Hits Hit). simpl.
    rewrite Hw. f_equal. lia.
Qed.

Lemma reservation_postcondition_witness :
  length (rows_of_order 1 (reserved_world scenario_A stocked_world).(db)) = 1%nat.
Proof.
  apply (reservation_postcondition scenario_A stocked_world None
           (reserved_world scenario_A stocked_world) None).
  - simpl. apply NoDup_singleton.
  - simpl. apply NoDup_nil_2.
  - simpl. intros r Hr. by apply elem_of_nil in Hr.
  - vm_compute. reflexivity.
Defined.

(** An event that names a product twice leaves one order item row for two
    items, and the inventory row down by both quantities. *)
Lemma reservation_duplicate_product_counterexample :
  ∃ w', process_order_event twice_10 stocked_world None = Done tt w' None ∧
        length (items twice_10) = 2%nat ∧
        rows_of_order 1 (db w') = [OrderItemRow 1 10 3 1%float] ∧
        inventory stocked_db !! 0%nat = Some (InventoryRow 10 5 100) ∧
        inventory (db w') !! 0%nat = Some (InventoryRow 10 5 95).
Proof. eexists. split; [vm_compute; reflexivity|]. vm_compute. auto. Qed.

(** ** The inventory decrement *)

Lemma decrement_row_absent qty pid wid (t : list inventory_row) :
  (pid, wid) ∉ inventory_key <$> t → decrement_row qty pid wid <$> t = t.
Proof.
  intros Hn. apply fmap_fixed. intros r Hr. unfold decrement_row.
  rewrite decide_False; [reflexivity|]. intros [<- <-].
  apply Hn. by apply (list_elem_of_fmap_2 inventory_key).
Qed.

(** C6.  The decrement statement never fails of itself and touches only the
    inventory: every row of the given product and warehouse has the quantity
    subtracted, below zero too, every other row stays, and with no such row the
    ledger is left as it was.  In the handler this is all that happens to the
    inventory: a run without infrastructure faults completes whatever the
    stock, each row down by what the event asks of it. *)
Theorem decrement_inventory_unconditional :
  (∀ qty pid wid d, ∃ d',
     update_inventory qty pid wid d = inr (tt, d') ∧
     execute (update_inventory qty pid wid) d None = Done tt d' None ∧
     orders d' = orders d ∧ order_items d' = order_items d ∧
     invoice d' = invoice d ∧
     (∀ i r, inventory d !! i = Some r →
        inventory d' !! i =
        Some (if decide (inv_product_id r = pid ∧ inv_warehouse_id r = wid)
              then InventoryRow pid wid (inv_quantity r - qty) else r)) ∧
     length (inventory d') = length (inventory d) ∧
     ((pid, wid) ∉ inventory_key <$> inventory d → d' = d)) ∧
  (∀ ev w, ∃ w',
     process_order_event ev w None = Done tt w' None ∧
     ∀ i r, inventory (db w) !! i = Some r →
       inventory (db w') !! i
       = Some (InventoryRow (inv_product_id r) (inv_warehouse_id r)
                 (inv_quantity r - requested (warehouse_id ev) (items ev) r))).
Proof.
  split.
  - intros qty pid wid d. eexists. split; [reflexivity|].
    split; [reflexivity|]. repeat split.
    + intros i r Hr. simpl. rewrite list_lookup_fmap, Hr. simpl.
      unfold decrement_row.
      destruct (decide _) as [[-> ->]|]; reflexivity.
    + simpl. apply length_fmap.
    + intros Hn. unfold set_inventory. rewrite decrement_row_absent by exact Hn.
      by destruct d.
  - intros ev w. eexists. split; [apply process_order_event_None|].
    intros i r Hr. by apply reserve_inventory_lookup.
Qed.

Lemma decrement_inventory_unconditional_witness :
  ∃ d', update_inventory 7 11 5 stocked_db = inr (tt, d') ∧
        inventory d' !! 1%nat = Some (InventoryRow 11 5 (-4)).
Proof.
  destruct (proj1 decrement_inventory_unconditional 7 11 5 stocked_db)
    as (d' & Hu & _ & _ & _ & _ & Hl & _).
  exists d'. split; [exact Hu|].
  exact (Hl 1%nat (InventoryRow 11 5 3) eq_refl).
Defined.

(** ** Redelivery of a reservation event *)

Lemma reserve_orders_idem oid wid (t : list order_row) :
  reserve_orders oid wid (reserve_orders oid wid t) = reserve_orders oid wid t.
Proof.
  unfold reserve_orders at 2 3.
  destruct (decide (oid ∈ o_order_id <$> t)) as [Hin|Hn].
  - unfold reserve_orders. rewrite decide_True.
    + rewrite <- list_fmap_compose. apply fmap_ext_all. intros r. simpl.
      destruct (decide (o_order_id r = oid)) as [E|E]; simpl.
      * rewrite decide_True by exact E. reflexivity.
      * rewrite decide_False by exact E. reflexivity.
    + rewrite <- list_fmap_compose.
      rewrite (fmap_ext_all _ o_order_id); [exact Hin|].
      intros r. simpl. by destruct (decide (o_order_id r = oid)).
  - unfold reserve_orders. rewrite decide_True.
    + rewrite fmap_app. f_equal.
      * apply fmap_fixed. intros r Hr. rewrite decide_False; [reflexivity|].
        intros E. apply Hn. rewrite <- E. by apply list_elem_of_fmap_2.
      * simpl. rewrite decide_True by reflexivity. reflexivity.
    + rewrite fmap_app. apply elem_of_app. right. simpl. left.
Qed.

(** C7.  When one reservation event is processed to completion twice, the
    second run leaves the orders table as the first did (the order's row is
    there once more only in status, reserved, and a ledger that had no row for
    the order has exactly one), leaves the order items as the first did, and
    takes every inventory row down a second time: its quantity ends at the
    original minus twice what the event asks of the row. *)
Theorem redelivery_double_decrement ev w f1 w1 g1 f2 w2 g2 :
  process_order_event ev w f1 = Done tt w1 g1 →
  process_order_event ev w1 f2 = Done tt w2 g2 →
  orders (db w2) = orders (db w1) ∧
  (order_rows (order_id ev) (db w2) ≠ [] ∧
   ∀ o, o ∈ order_rows (order_id ev) (db w2) → o_status o = "reserved") ∧
  (order_rows (order_id ev) (db w) = [] →
   order_rows (order_id ev) (db w2)
   = [OrderRow (order_id ev) (warehouse_id ev) "reserved" None]) ∧
  order_items (db w2) = order_items (db w1) ∧
  (∀ i r, inventory (db w) !! i = Some r →
     inventory (db w2) !! i
     = Some (InventoryRow (inv_product_id r) (inv_warehouse_id r)
               (inv_quantity r - 2 * requested (warehouse_id ev) (items ev) r))) ∧
  (∀ it i r, occurrences (product_id it) (items ev) = [it] →
     inventory (db w) !! i = Some r →
     inv_product_id r = product_id it → inv_warehouse_id r = warehouse_id ev →
     inventory (db w2) !! i
     = Some (InventoryRow (product_id it) (warehouse_id ev)
               (inv_quantity r - 2 * quantity it))).
Proof.
  intros H1 H2. apply process_order_event_done in H1. subst w1.
  apply process_order_event_done in H2. subst w2.
  assert (Hinv : ∀ i r, inventory (db w) !! i = Some r →
     inventory (db (reserved_world ev (reserved_world ev w))) !! i
     = Some (InventoryRow (inv_product_id r) (inv_warehouse_id r)
               (inv_quantity r - 2 * requested (warehouse_id ev) (items ev) r))).
  { intros i r Hr. simpl db.
    rewrite (reserve_inventory_lookup ev _ i _ (reserve_inventory_lookup ev _ i r Hr)).
    simpl. f_equal. f_equal. unfold requested; simpl.
    destruct (decide (inv_warehouse_id r = warehouse_id ev)); lia. }
  split; [apply reserve_orders_idem|].
  split; [apply order_rows_reserved|]. split; [|split; [|split]].
  - intros Hnone. simpl db. rewrite order_rows_reserve.
    rewrite decide_True.
    + rewrite order_rows_reserve. rewrite decide_False; [reflexivity|].
      intros Hin. by apply (order_rows_nonempty _ _ Hin).
    + destruct (order_rows_reserved ev (db w)) as [Hne _].
      destruct (decide (order_id ev ∈ o_order_id <$> orders (reserve_db ev (db w))))
        as [?|Hn]; [assumption|].
      by apply order_rows_nil in Hn.
  - apply upsert_all_idem.
  - exact Hinv.
  - intros it i r Hocc Hr Hp Hw. rewrite (Hinv i r Hr). f_equal.
    unfold requested. rewrite decide_True by exact Hw.
    rewrite Hp, Hocc, Hw. simpl. f_equal. lia.
Qed.

Lemma redelivery_double_decrement_witness :
  inventory (db (reserved_world scenario_A (reserved_world scenario_A stocked_world)))
    !! 0%nat = Some (InventoryRow 10 5 96).
Proof.
  refine (proj2 (proj2 (proj2 (proj2 (proj2
    (redelivery_double_decrement scenario_A stocked_world None
       (reserved_world scenario_A stocked_world) None None
       (reserved_world scenario_A (reserved_world scenario_A stocked_world)) None
       _ _))))) (MkItem 10 2 9.5%float) 0%nat (InventoryRow 10 5 100) _ _ _ _);
    vm_compute; reflexivity.
Defined.

(** ** Confirmation after reservation *)

Lemma order_rows_confirmed env oid doc w :
  order_rows oid (db (confirmed_world env oid doc w))
  = with_invoice_blob (blob_url env (blob_name oid))
      <$> (with_status "confirmed" <$> order_rows oid (db w)).
Proof.
  unfold order_rows, confirmed_world, invoice_blob_db, confirm_db; simpl.
  rewrite (filter_fmap_if_same (λ r, o_order_id r = oid)) by reflexivity.
  rewrite (filter_fmap_if_same (λ r, o_order_id r = oid)) by reflexivity.
  reflexivity.
Qed.

Lemma head_order_rows_Some oid d :
  order_rows oid d ≠ [] → ∃ o, head (order_rows oid d) = Some o.
Proof. destruct (order_rows oid d) as [|o l]; [done|]. eauto. Qed.

Lemma pdf_rows_lines rows lines :
  pdf_rows rows = inr lines →
  Forall2 (λ r l, ∃ x, line_total (oi_quantity r) (oi_price r) = inr x ∧
                       l = (oi_product_id r, oi_quantity r, oi_price r, x))
          rows lines.
Proof.
  revert lines. induction rows as [|r rows IH]; intros lines H; simpl in H.
  - inversion H. constructor.
  - destruct (line_total (oi_quantity r) (oi_price r)) as [e|x] eqn:E; [discriminate|].
    destruct (pdf_rows rows) as [e|ls]; [discriminate|].
    inversion H; subst. constructor; [eauto | auto].
Qed.

Lemma pdf_lines_of_product p rows lines :
  Forall2 (λ r l, ∃ x, line_total (oi_quantity r) (oi_price r) = inr x ∧
                       l = (oi_product_id r, oi_quantity r, oi_price r, x))
          rows lines →
  Forall2 (λ r l, ∃ x, line_total (oi_quantity r) (oi_price r) = inr x ∧
                       l = (oi_product_id r, oi_quantity r, oi_price r, x))
          (filter (λ r, oi_product_id r = p) rows)
          (filter (λ l : Z * Z * float * float, l.1.1.1 = p) lines).
Proof.
  induction 1 as [|r l rows lines (x & Hx & ->) _ IH]; [constructor|].
  rewrite !filter_cons. simpl.
  destruct (decide (oi_product_id r = p)); [constructor; eauto | exact IH].
Qed.

(** What a completed confirmation of an order that is there has uploaded. *)
Lemma confirm_after_reserve py_sum env ev w1 g u w2 g2 d :
  db w1 = reserve_db ev d →
  confirm_order_event py_sum env (order_id ev) w1 g = Done u w2 g2 →
  ∃ o products lines,
    line_totals (rows_of_order (order_id ev) (db w1)) = inr products ∧
    pdf_rows (rows_of_order (order_id ev) (db w1)) = inr lines ∧
    snd <$> lines = products ∧
    w2 = confirmed_world env (order_id ev)
           (invoice_doc env (order_id ev) o lines (py_sum products)) w1.
Proof.
  intros Hd H. apply confirm_order_event_done in H.
  destruct (order_rows_reserved ev d) as [Hne _]. rewrite <- Hd in Hne.
  destruct (head_order_rows_Some _ _ Hne) as [o Ho]. rewrite Ho in H.
  destruct H as (products & lines & ? & ? & ? & ?). eauto 10.
Qed.

Lemma line_totals_products rows products :
  line_totals rows = inr products →
  products = (λ r, (nearest_float (oi_quantity r) * oi_price r)%float) <$> rows.
Proof.
  revert products. induction rows as [|r rows IH]; intros products H; simpl in H.
  - by inversion H.
  - unfold line_total, float_of_int in H. fold (nearest_float (oi_quantity r)) in H.
    destruct (is_infinity (nearest_float (oi_quantity r))); [discriminate|].
    destruct (line_totals rows) as [e|xs]; [discriminate|].
    inversion H; subst. rewrite fmap_cons, <- (IH xs eq_refl). reflexivity.
Qed.

Lemma sum_left_fmap {A} (g : A → float) (l : list A) :
  sum_left (g <$> l) = foldl (λ acc r, (acc + g r)%float) 0%float l.
Proof.
  unfold sum_left. generalize 0%float.
  induction l as [|x l IH]; intros acc; [reflexivity|].
  rewrite fmap_cons. simpl. apply IH.
Qed.

(** C2.  When an order is reserved by a run that completes and then confirmed
    by a run that completes, its row is there with status confirmed, and the
    invoice uploaded under the order's blob name carries as grand total the
    sum over the order's item rows of quantity times price, computed in
    floating point: each quantity turned into the nearest float, multiplied
    with the price, and the products added from 0 in the order of the rows,
    which is the builtin [sum] up to Python 3.11. *)
Theorem reserve_then_confirm env ev w f w1 f1 g w2 g2 :
  process_order_event ev w f = Done tt w1 f1 →
  confirm_order_event sum_left env (order_id ev) w1 g = Done tt w2 g2 →
  (order_rows (order_id ev) (db w2) ≠ [] ∧
   ∀ o, o ∈ order_rows (order_id ev) (db w2) → o_status o = "confirmed") ∧
  ∃ doc,
    invoices w2 !! blob_name (order_id ev) = Some doc ∧
    order_items (db w2) = order_items (db w1) ∧
    pdf_grand_total doc = float_total (rows_of_order (order_id ev) (db w2)).
Proof.
  intros H1 H2. apply process_order_event_done in H1. subst w1.
  destruct (confirm_after_reserve sum_left env ev (reserved_world ev w) g tt w2 g2
              (db w) eq_refl H2)
    as (o & products & lines & Hp & Hl & Hs & ->).
  split; [split|].
  - rewrite order_rows_confirmed. intros E.
    apply fmap_nil_inv, fmap_nil_inv in E.
    by apply (order_rows_reserved ev (db w)).
  - intros o' Ho'. rewrite order_rows_confirmed in Ho'.
    apply list_elem_of_fmap in Ho' as (r & -> & Hr).
    apply list_elem_of_fmap in Hr as (r' & -> & _). reflexivity.
  - exists (invoice_doc env (order_id ev) o lines (sum_left products)).
    split; [apply lookup_insert_eq|]. split; [reflexivity|].
    simpl pdf_grand_total. rewrite (line_totals_products _ _ Hp).
    apply sum_left_fmap.
Qed.

Lemma reserve_then_confirm_witness :
  ∃ doc, invoices (confirmed_world scenario_env 1
                     (invoice_doc scenario_env 1 (OrderRow 1 5 "reserved" None)
                        [(10, 2, 9.5%float, 19%float)] 19%float)
                     (reserved_world scenario_A stocked_world))
           !! blob_name 1 = Some doc ∧
         pdf_grand_total doc = 19%float.
Proof.
  destruct (reserve_then_confirm scenario_env scenario_A stocked_world None
              (reserved_world scenario_A stocked_world) None None
              (confirmed_world scenario_env 1
                 (invoice_doc scenario_env 1 (OrderRow 1 5 "reserved" None)
                    [(10, 2, 9.5%float, 19%float)] 19%float)
                 (reserved_world scenario_A stocked_world)) None)
    as [_ (doc & Hdoc & _ & Ht)].
  - vm_compute. reflexivity.
  - vm_compute. reflexivity.
  - exists doc. split; [exact Hdoc|]. rewrite Ht. vm_compute. reflexivity.
Defined.

(** ** An event that names a product more than once *)

(** C9.  For a product that an event names, once or several times, a run that
    completes on a ledger with a unique order item key takes every inventory
    row of the product in the event's warehouse down by the sum of the
    quantities of all its occurrences, yet leaves exactly one order item row
    for the order and the product, holding the quantity and price of the last
    occurrence.  The invoice that a later confirmation uploads has one line
    for the product, the last occurrence's, and its grand total is the sum of
    its lines, so the earlier occurrences are not in it. *)
Theorem duplicate_product_last_wins py_sum env ev w f w1 f1 g w2 g2 p it :
  NoDup (item_key <$> order_items (db w)) →
  last (occurrences p (items ev)) = Some it →
  process_order_event ev w f = Done tt w1 f1 →
  confirm_order_event py_sum env (order_id ev) w1 g = Done tt w2 g2 →
  (∀ i r, inventory (db w) !! i = Some r →
     inv_product_id r = p → inv_warehouse_id r = warehouse_id ev →
     inventory (db w1) !! i
     = Some (InventoryRow p (warehouse_id ev)
               (inv_quantity r - sum_quantities (occurrences p (items ev))))) ∧
  filter (λ r, item_key r = (order_id ev, p)) (order_items (db w1))
  = [item_row (order_id ev) it] ∧
  ∃ doc x,
    invoices w2 !! blob_name (order_id ev) = Some doc ∧
    line_total (quantity it) (price it) = inr x ∧
    filter (λ l : Z * Z * float * float, l.1.1.1 = p) (pdf_lines doc)
    = [(p, quantity it, price it, x)] ∧
    pdf_grand_total doc = py_sum (snd <$> pdf_lines doc).
Proof.
  intros Hkeys Hlast H1 H2. apply process_order_event_done in H1. subst w1.
  assert (Hrow : filter (λ r, item_key r = (order_id ev, p))
                   (order_items (db (reserved_world ev w)))
                 = [item_row (order_id ev) it]).
  { simpl. rewrite upsert_all_filter by exact Hkeys. by rewrite Hlast. }
  assert (Hp : product_id it = p).
  { apply last_Some in Hlast as [l' E].
    assert (it ∈ occurrences p (items ev)) as Hit
      by (rewrite E; apply elem_of_app; right; by apply list_elem_of_singleton).
    by apply list_elem_of_filter in Hit as [? _]. }
  split; [|split; [exact Hrow|]].
  - intros i r Hr Hpr Hw. simpl db.
    rewrite (reserve_inventory_lookup ev _ i r Hr). unfold requested.
    rewrite decide_True by exact Hw. by rewrite Hpr, Hw.
  - destruct (confirm_after_reserve py_sum env ev (reserved_world ev w) g tt w2 g2
              (db w) eq_refl H2)
      as (o & products & lines & _ & Hl & Hs & ->).
    apply pdf_rows_lines, (pdf_lines_of_product p) in Hl.
    unfold rows_of_order in Hl. rewrite <- rows_of_order_key, Hrow in Hl.
    inversion Hl as [|r l rows' lines' (x & Hx & Hlx) Hnil Er El]; subst.
    inversion Hnil; subst.
    exists (invoice_doc env (order_id ev) o lines (py_sum (snd <$> lines))), x.
    split; [apply lookup_insert_eq|]. split; [exact Hx|].
    split; [|reflexivity]. simpl pdf_lines. rewrite <- El. reflexivity.
Qed.

Lemma duplicate_product_last_wins_witness :
  filter (λ r, item_key r = (1, 10))
    (order_items (db (reserved_world twice_10 stocked_world)))
  = [OrderItemRow 1 10 3 1%float].
Proof.
  refine (proj1 (proj2
    (duplicate_product_last_wins sum_left scenario_env twice_10 stocked_world None
       (reserved_world twice_10 stocked_world) None None
       (confirmed_world scenario_env 1
          (invoice_doc scenario_env 1 (OrderRow 1 5 "reserved" None)
             [(10, 3, 1%float, 3%float)] 3%float)
          (reserved_world twice_10 stocked_world)) None
       10 (MkItem 10 3 1%float) _ _ _ _))).
  - simpl. apply NoDup_nil_2.
  - vm_compute. reflexivity.
  - vm_compute. reflexivity.
  - vm_compute. reflexivity.
Defined.

(** ** Confirmation of an order that is not there *)

Lemma set_db_same w : set_db (db w) w = w.
Proof. by destruct w. Qed.

(** C5.  A confirmation event for an order with no row makes three round
    trips to the store (the connection, the lookup, the commit of the empty
    block) and returns: with no infrastructure fault, or none before the
    fourth operation, the run completes and the world, ledger, invoice
    container and queue, is the one it started in; nothing is uploaded, for an
    upload would be a fourth operation.  A fault within the three round trips
    is raised, and the world is unchanged then too. *)
Theorem confirm_missing_order py_sum env oid w :
  order_rows oid (db w) = [] →
  confirm_order_event py_sum env oid w None = Done tt w None ∧
  (∀ n, (3 ≤ n)%nat →
     confirm_order_event py_sum env oid w (Some n) = Done tt w (Some (n - 3)%nat)) ∧
  (∀ n, (n < 3)%nat →
     confirm_order_event py_sum env oid w (Some n) = Raised OperationalError w).
Proof.
  intros Hnone. unfold order_rows in Hnone.
  assert (Hrun : ∀ f, confirm_order_event py_sum env oid w f =
            match f with
            | None => Done tt w None
            | Some (S (S (S n))) => Done tt w (Some n)
            | Some _ => Raised OperationalError w
            end).
  { intros f. unfold confirm_order_event, confirm_order_tx, engine_begin, execute,
      select_order, run_stmt, mbind, eff_bind, tick.
    destruct f as [[|[|[|n]]]|]; try reflexivity;
      rewrite Hnone; simpl; by destruct w. }
  split; [apply Hrun|]. split.
  - intros n Hn. rewrite Hrun. destruct n as [|[|[|n]]]; try lia.
    do 2 f_equal. lia.
  - intros n Hn. rewrite Hrun. destruct n as [|[|[|n]]]; try lia; reflexivity.
Qed.

Lemma confirm_missing_order_witness :
  confirm_order_event sum_left scenario_env 999 stocked_world None
  = Done tt stocked_world None.
Proof.
  apply (confirm_missing_order sum_left scenario_env 999 stocked_world).
  vm_compute. reflexivity.
Defined.

(** ** Transactions *)

Lemma tick_done {S} e (s : S) f u s' f' : tick e s f = Done u s' f' → s' = s.
Proof. destruct f as [[|n]|]; simpl; intros H; inversion H; reflexivity. Qed.

Lemma tick_raised {S} e (s : S) f e' s' :
  tick e s f = Raised e' s' → e' = e ∧ s' = s.
Proof. destruct f as [[|n]|]; simpl; intros H; inversion H; auto. Qed.

(** The ledger a confirmation leaves, by how the run ends: a run that raises
    has committed nothing or the first block, a run that completes nothing
    (no order) or both blocks. *)
Lemma confirm_order_event_db py_sum env oid w f :
  match confirm_order_event py_sum env oid w f with
  | Done _ w' _ =>
    db w' = db w ∨ db w' = invoice_blob_db env oid (confirm_db env oid (db w))
  | Raised _ w' => db w' = db w ∨ db w' = confirm_db env oid (db w)
  end.
Proof.
  unfold confirm_order_event, mbind, eff_bind.
  destruct (engine_begin (confirm_order_tx py_sum env oid) w f)
    as [found w1 f1|e w1] eqn:E1.
  2: { apply engine_begin_raised in E1. subst. by left. }
  apply engine_begin_done in E1 as (d & fa & fb & Hb & ->).
  apply stable_confirm_order_tx in Hb. rewrite confirm_order_tx_None in Hb.
  destruct (head (order_rows oid (db w))) as [o|].
  2: { inversion Hb; subst. simpl. by left. }
  destruct (line_totals (rows_of_order oid (db w))) as [e|products]; [discriminate|].
  inversion Hb; subst; clear Hb.
  unfold publish_invoice, mbind, eff_bind, lift.
  destruct (pdf_rows (rows_of_order oid (db w))) as [e|lines]; [by right|].
  unfold upload_blob, mbind, eff_bind.
  destruct (tick BlobStorageError (set_db (confirm_db env oid (db w)) w) f1)
    as [[] w2 f2|e w2] eqn:E2.
  2: { apply tick_raised in E2 as [_ ->]. by right. }
  apply tick_done in E2. subst w2. unfold modify.
  match goal with |- match engine_begin ?b ?w3 ?f3 with _ => _ end =>
    destruct (engine_begin b w3 f3) as [u w4 f4|e w4] eqn:E3 end.
  - apply engine_begin_done in E3 as (d2 & fc & fd & Hb2 & ->).
    apply stable_execute in Hb2. inversion Hb2; subst. by right.
  - apply engine_begin_raised in E3. subst. by right.
Qed.

(** C3, as the code has it.  Every [with engine.begin()] block is atomic: a
    block that raises stores nothing and one that completes stores what its
    whole body did.  The reservation handler has one block: an exception in
    it is the handler's exception and leaves the world as it was, and the
    only other way the handler raises is the queue's refusal after the commit.
    The confirmation handler has two blocks around the upload: an exception in
    the first is the handler's exception and leaves the world as it was, and
    whenever the handler raises the ledger is the one before the invocation
    or the one after the first block, never a part of a block. *)
Theorem transaction_blocks_atomic py_sum env :
  (∀ A (body : Eff DB A) w f e w',
     engine_begin body w f = Raised e w' → w' = w) ∧
  (∀ A (body : Eff DB A) w f a w' f',
     engine_begin body w f = Done a w' f' →
     ∃ d f1 f2, body (db w) f1 = Done a d f2 ∧ w' = set_db d w) ∧
  (∀ ev w f e w',
     engine_begin (process_order_tx ev) w f = Raised e w' →
     process_order_event ev w f = Raised e w) ∧
  (∀ ev w f e w',
     process_order_event ev w f = Raised e w' →
     w' = w ∨ (e = ServiceBusError ∧ w' = set_db (reserve_db ev (db w)) w)) ∧
  (∀ oid w f e w',
     engine_begin (confirm_order_tx py_sum env oid) w f = Raised e w' →
     confirm_order_event py_sum env oid w f = Raised e w) ∧
  (∀ oid w f e w',
     confirm_order_event py_sum env oid w f = Raised e w' →
     db w' = db w ∨ db w' = confirm_db env oid (db w)).
Proof.
  split; [intros A body w f e w'; apply engine_begin_raised|].
  split; [intros A body w f a w' f'; apply engine_begin_done|].
  split; [|split; [|split]].
  - intros ev w f e w' H. unfold process_order_event, mbind, eff_bind.
    rewrite H. f_equal. by apply engine_begin_raised in H.
  - intros ev w f e w'. unfold process_order_event, mbind, eff_bind.
    destruct (engine_begin (process_order_tx ev) w f) as [u w1 f1|e1 w1] eqn:E1.
    + apply engine_begin_done in E1 as (d & fa & fb & Hb & ->).
      apply stable_process_order_tx in Hb. rewrite process_order_tx_None in Hb.
      inversion Hb; subst; clear Hb.
      unfold send_to_confirmation_queue, mbind, eff_bind.
      destruct (tick ServiceBusError _ f1) as [[] w2 f2|e2 w2] eqn:E2.
      * discriminate.
      * apply tick_raised in E2 as [-> ->]. intros H. inversion H; subst. by right.
    + apply engine_begin_raised in E1. subst. intros H. inversion H; subst. by left.
  - intros oid w f e w' H. unfold confirm_order_event, mbind, eff_bind.
    rewrite H. f_equal. by apply engine_begin_raised in H.
  - intros oid w f e w' H.
    pose proof (confirm_order_event_db py_sum env oid w f) as Hdb.
    rewrite H in Hdb. exact Hdb.
Qed.

Lemma transaction_blocks_atomic_witness :
  process_order_event scenario_A stocked_world (Some 3%nat)
  = Raised OperationalError stocked_world.
Proof.
  refine (proj1 (proj2 (proj2
    (transaction_blocks_atomic sum_left scenario_env)))
    scenario_A stocked_world (Some 3%nat) OperationalError stocked_world _).
  vm_compute. reflexivity.
Defined.

(** A fault in the second block of a confirmation: the handler raises, and the
    order stays confirmed with its invoice row, without an invoice address. *)
Lemma confirm_second_block_counterexample :
  ∃ w',
    confirm_order_event sum_left scenario_env 1
      (reserved_world scenario_A stocked_world) (Some 8%nat)
    = Raised OperationalError w' ∧
    engine_begin (invoice_blob_tx scenario_env 1) w' (Some 1%nat)
    = Raised OperationalError w' ∧
    order_rows 1 (db (reserved_world scenario_A stocked_world))
    = [OrderRow 1 5 "reserved" None] ∧
    order_rows 1 (db w') = [OrderRow 1 5 "confirmed" None] ∧
    invoice (db (reserved_world scenario_A stocked_world)) = [] ∧
    invoice (db w') = [InvoiceRow 1 1700000000].
Proof.
  eexists. split; [vm_compute; reflexivity|]. vm_compute. auto 10.
Qed.

(** ** The status of an order across deliveries *)






(** ** The invoice blob *)

Lemma string_app_cons a s t : String a s +:+ t = String a (s +:+ t).
Proof. reflexivity. Qed.

Lemma string_length_app s t :
  String.length (s +:+ t) = (String.length s + String.length t)%nat.
Proof.
  induction s as [|a s IH]; [reflexivity|].
  rewrite string_app_cons. simpl. by rewrite IH.
Qed.

Lemma string_app_inv_tail s1 s2 t : s1 +:+ t = s2 +:+ t → s1 = s2.
Proof.
  revert s2. induction s1 as [|a s1 IH]; intros [|b s2] H.
  - reflexivity.
  - apply (f_equal String.length) in H. rewrite !string_length_app in H.
    simpl in H. lia.
  - apply (f_equal String.length) in H. rewrite !string_length_app in H.
    simpl in H. lia.
  - rewrite !string_app_cons in H. inversion H; subst. f_equal. by apply IH.
Qed.

Lemma blob_name_inj o1 o2 : blob_name o1 = blob_name o2 → o1 = o2.
Proof.
  unfold blob_name. intros H. apply String.app_inj in H.
  apply string_app_inv_tail in H. by apply pretty_Z_inj in H.
Qed.

(** C8, as the code has it.  The blob name is [invoice_order_], the order id
    in decimal, and [.pdf]; it depends on the order id alone and differs for
    different orders.  A confirmation that completes for an order that is
    there changes the invoice container by one upload, under that name, of the
    order's invoice; a second one for the same order puts its document in the
    place of the first and adds no blob. *)
Theorem invoice_blob_key py_sum :
  (∀ oid, blob_name oid = "invoice_order_" +:+ pretty oid +:+ ".pdf") ∧
  (∀ o1 o2, blob_name o1 = blob_name o2 → o1 = o2) ∧
  (∀ env oid w f w' f',
     order_rows oid (db w) ≠ [] →
     confirm_order_event py_sum env oid w f = Done tt w' f' →
     ∃ doc, invoices w' = <[blob_name oid := doc]> (invoices w) ∧
            pdf_order_id doc = oid) ∧
  (∀ env1 env2 oid w f w' f' g w'' g',
     order_rows oid (db w) ≠ [] →
     confirm_order_event py_sum env1 oid w f = Done tt w' f' →
     confirm_order_event py_sum env2 oid w' g = Done tt w'' g' →
     ∃ doc', invoices w'' = <[blob_name oid := doc']> (invoices w) ∧
             dom (invoices w'') = dom (invoices w')).
Proof.
  assert (Hone : ∀ env oid w f w' f',
     order_rows oid (db w) ≠ [] →
     confirm_order_event py_sum env oid w f = Done tt w' f' →
     ∃ doc, invoices w' = <[blob_name oid := doc]> (invoices w) ∧
            pdf_order_id doc = oid ∧ order_rows oid (db w') ≠ []).
  { intros env oid w f w' f' Hne H. apply confirm_order_event_done in H.
    destruct (head_order_rows_Some _ _ Hne) as [o Ho]. rewrite Ho in H.
    destruct H as (products & lines & _ & _ & _ & ->).
    eexists. split; [reflexivity|]. split; [reflexivity|].
    rewrite order_rows_confirmed. intros E.
    by apply fmap_nil_inv, fmap_nil_inv in E. }
  split; [reflexivity|]. split; [apply blob_name_inj|]. split.
  - intros env oid w f w' f' Hne H.
    destruct (Hone _ _ _ _ _ _ Hne H) as (doc & ? & ? & _). eauto.
  - intros env1 env2 oid w f w' f' g w'' g' Hne H1 H2.
    destruct (Hone _ _ _ _ _ _ Hne H1) as (doc1 & E1 & _ & Hne').
    destruct (Hone _ _ _ _ _ _ Hne' H2) as (doc2 & E2 & _ & _).
    exists doc2. rewrite E2, E1. split; [apply insert_insert_eq|].
    apply dom_insert_lookup_L. rewrite lookup_insert_eq. eauto.
Qed.

Lemma invoice_blob_key_witness :
  ∃ doc, invoices (confirmed_world scenario_env 1
                     (invoice_doc scenario_env 1 (OrderRow 1 5 "reserved" None)
                        [(10, 2, 9.5%float, 19%float)] 19%float)
                     (reserved_world scenario_A stocked_world))
         = <[blob_name 1 := doc]> ∅ ∧ pdf_order_id doc = 1.
Proof.
  refine (proj1 (proj2 (proj2 (invoice_blob_key sum_left)))
    scenario_env 1 (reserved_world scenario_A stocked_world) None _ None _ _).
  - vm_compute. discriminate.
  - vm_compute. reflexivity.
Defined.

(** The invoice of order 1 is stored under [invoice_order_1.pdf]; under
    [invoice_order_1] there is nothing. *)
Lemma invoice_key_counterexample :
  ∃ w1 w2,
    process_order_event scenario_A stocked_world None = Done tt w1 None ∧
    confirm_order_event sum_left scenario_env 1 w1 None = Done tt w2 None ∧
    invoices w2 !! "invoice_order_1" = None ∧
    pdf_grand_total <$> invoices w2 !! "invoice_order_1.pdf" = Some 19%float.
Proof.
  do 2 eexists. split; [vm_compute; reflexivity|].
  split; [vm_compute; reflexivity|]. split; vm_compute; reflexivity.
Qed.

(** ** What the handlers parse *)

Lemma str_replace_get old new s i :
  String.get i (str_replace old new s)
  = (λ c, if decide (c = old) then new else c) <$> String.get i s.
Proof.
  revert i. induction s as [|c s IH]; intros i; [reflexivity|].
  destruct i as [|i]; simpl; [reflexivity | apply IH].
Qed.

Lemma str_replace_length old new s :
  String.length (str_replace old new s) = String.length s.
Proof. induction s as [|c s IH]; simpl; [reflexivity | by rewrite IH]. Qed.

Lemma str_replace_absent old new s :
  (∀ i, String.get i s ≠ Some old) → str_replace old new s = s.
Proof.
  induction s as [|c s IH]; intros H; simpl; [reflexivity|].
  rewrite decide_False by (intros ->; by apply (H 0%nat)).
  f_equal. apply IH. intros i. apply (H (S i)).
Qed.

Lemma str_replace_idem old new s :
  old ≠ new → str_replace old new (str_replace old new s) = str_replace old new s.
Proof.
  intros Hne. apply str_replace_absent. intros i. rewrite str_replace_get.
  destruct (String.get i s) as [c|]; simpl; [|discriminate].
  destruct (decide (c = old)); congruence.
Qed.

Lemma exn_bind_inr {A B} (r : exn + A) (k : A → exn + B) b :
  exn_bind r k = inr b → ∃ a, r = inr a ∧ k a = inr b.
Proof. destruct r as [e|a]; [discriminate|]. eauto. Qed.

Lemma as_int_inr v n : as_int v = inr n → v = JInt n.
Proof. destruct v; try discriminate. by intros [= ->]. Qed.

Lemma item_of_json_inr v it :
  item_of_json v = inr it →
  ∃ p, subscript v "product_id" = inr (JInt (product_id it)) ∧
       subscript v "quantity" = inr (JInt (quantity it)) ∧
       subscript v "price" = inr p ∧ as_number p = inr (price it).
Proof.
  unfold item_of_json. intros H.
  apply exn_bind_inr in H as (pid & H1 & H).
  apply exn_bind_inr in H1 as (vp & H1 & ->%as_int_inr).
  apply exn_bind_inr in H as (qty & H2 & H).
  apply exn_bind_inr in H2 as (vq & H2 & ->%as_int_inr).
  apply exn_bind_inr in H as (p & H3 & H).
  apply exn_bind_inr in H3 as (vpr & H3 & H4).
  inversion H; subst. eauto.
Qed.

Lemma items_of_json_inr l its :
  items_of_json l = inr its → Forall2 (λ v it, item_of_json v = inr it) l its.
Proof.
  revert its. induction l as [|v l IH]; intros its H; simpl in H.
  - inversion H. constructor.
  - apply exn_bind_inr in H as (it & Hit & H).
    apply exn_bind_inr in H as (its' & Hits & H). inversion H; subst.
    constructor; auto.
Qed.

Lemma for_each_Forall2 {S A B} (R : A → B → Prop) l1 l2
    (b1 : A → Eff S unit) (b2 : B → Eff S unit) :
  Forall2 R l1 l2 →
  (∀ x y, R x y → ∀ s f, b1 x s f = b2 y s f) →
  ∀ s f, for_each l1 b1 s f = for_each l2 b2 s f.
Proof.
  intros HF Hb. induction HF as [|x y l1 l2 Hxy _ IH]; intros s f; [reflexivity|].
  simpl. unfold mbind, eff_bind. rewrite (Hb x y Hxy).
  destruct (b2 y s f); [apply IH | reflexivity].
Qed.

(** On the values of an event in the wire format the block of [process_order]
    is the transaction of the event, under every fault schedule. *)
Lemma process_order_block_wire_format oid wid l its :
  items_of_json l = inr its →
  ∀ d f, process_order_block (JInt oid) (JInt wid) (JArray l) d f
         = process_order_tx (MkOrderEvent oid wid its) d f.
Proof.
  intros Hits d f. apply items_of_json_inr in Hits.
  unfold process_order_block, process_order_tx, mbind, eff_bind, lift. simpl.
  destruct (execute (select_order_id oid) d f) as [existing d1 f1|e d1];
    [|reflexivity].
  assert (Hup : ∀ d f,
    match existing with
    | Some _ => λ s f0, execute (update_order_status "reserved" oid) s f0
    | None => λ s f0, execute (insert_order oid wid) s f0
    end d f
    = match existing with
      | Some _ => execute (update_order_status "reserved" oid)
      | None => execute (insert_order oid wid)
      end d f) by (intros; by destruct existing).
  rewrite Hup.
  match goal with |- match ?m with _ => _ end = _ =>
    destruct m as [u d2 f2|e d2]; [|reflexivity] end.
  rewrite (for_each_Forall2 (λ v it, item_of_json v = inr it) l its _
    (λ item, execute (update_inventory (quantity item) (product_id item) wid))
    Hits).
  2: { intros v it Hv s f0. apply item_of_json_inr in Hv as (p & -> & -> & _).
       reflexivity. }
  match goal with |- match ?m with _ => _ end = _ =>
    destruct m as [u3 d3 f3|e d3]; [|reflexivity] end.
  apply (for_each_Forall2 (λ v it, item_of_json v = inr it) l its _ _ Hits).
  intros v it Hv s f0. apply item_of_json_inr in Hv as (p & -> & -> & -> & Hp).
  simpl. rewrite Hp. reflexivity.
Qed.

(** A body that parses to an event in the wire format is processed as that
    event. *)
Lemma process_order_wire_format json_loads body order_event ev :
  json_loads body = Some order_event →
  order_event_of_json order_event = inr ev →
  ∀ w f, process_order json_loads body w f = process_order_event ev w f.
Proof.
  intros Hj Hd w f. unfold process_order. rewrite Hj. clear Hj.
  unfold order_event_of_json in Hd.
  apply exn_bind_inr in Hd as (oid & H1 & Hd).
  apply exn_bind_inr in H1 as (vo & H1 & ->%as_int_inr).
  apply exn_bind_inr in Hd as (wid & H2 & Hd).
  apply exn_bind_inr in H2 as (vw & H2 & ->%as_int_inr).
  apply exn_bind_inr in Hd as (vi & H3 & Hd).
  destruct vi as [| | | | |l|]; try discriminate.
  apply exn_bind_inr in Hd as (its & Hits & Hd). inversion Hd; subst; clear Hd.
  unfold mbind, eff_bind, lift. rewrite H1, H2, H3.
  unfold process_order_event, mbind, eff_bind, engine_begin.
  destruct (tick OperationalError w f) as [u w1 f1|e w1]; [|reflexivity].
  rewrite (process_order_block_wire_format oid wid l its Hits).
  destruct (process_order_tx (MkOrderEvent oid wid its) (db w) f1)
    as [u2 d2 f2|e d2]; [|reflexivity].
  destruct (tick OperationalError w f2) as [u3 w3 f3|e w3]; reflexivity.
Qed.

(** C10.  The text the confirmation handler parses is its body with a double
    quote in the place of every apostrophe and every other character where it
    was: no apostrophe is left, a body with an apostrophe is changed, a body
    without one is not, and the handler does the same on a body and on the
    replaced body.  So a body in the style of a Python dict is read as the
    JSON text it becomes, and a JSON text with an apostrophe in a string is no
    longer one when it is parsed.  The reservation handler parses its body as
    it came: what the parser makes of the body itself decides the run, and a
    dict-style body is refused. *)
Theorem confirmation_body_quotes json_loads py_sum env :
  (∀ body i,
     String.get i (str_replace squote dquote body)
     = (λ c, if decide (c = squote) then dquote else c) <$> String.get i body) ∧
  (∀ body i, String.get i (str_replace squote dquote body) ≠ Some squote) ∧
  (∀ body i, String.get i body = Some squote →
             str_replace squote dquote body ≠ body) ∧
  (∀ body, (∀ i, String.get i body ≠ Some squote) →
           str_replace squote dquote body = body) ∧
  (∀ body, confirm_order json_loads py_sum env (str_replace squote dquote body)
           = confirm_order json_loads py_sum env body) ∧
  (∀ body event oid,
     json_loads (str_replace squote dquote body) = Some event →
     confirmation_of_json event = inr oid →
     ∀ w f, confirm_order json_loads py_sum env body w f
            = confirm_order_event py_sum env oid w f) ∧
  (json_loads json_body = Some (JObject [("order_id", JInt 1)]) →
   ∀ w f, confirm_order json_loads py_sum env dict_style_body w f
          = confirm_order_event py_sum env 1 w f) ∧
  (∀ w f, json_loads_plain apostrophe_body ≠ None ∧
     confirm_order json_loads_plain py_sum env apostrophe_body w f
     = Raised JSONDecodeError w) ∧
  (∀ body w f, json_loads body = None →
     process_order json_loads body w f = Raised JSONDecodeError w) ∧
  (∀ body order_event ev,
     json_loads body = Some order_event →
     order_event_of_json order_event = inr ev →
     ∀ w f, process_order json_loads body w f = process_order_event ev w f) ∧
  (∀ w f, process_order json_loads_plain dict_style_body w f
          = Raised JSONDecodeError w).
Proof.
  assert (Hne : squote ≠ dquote) by discriminate.
  split; [intros; apply str_replace_get|].
  split.
  { intros body i. rewrite str_replace_get.
    destruct (String.get i body) as [c|]; simpl; [|discriminate].
    destruct (decide (c = squote)); congruence. }
  split.
  { intros body i Hi E. apply (f_equal (String.get i)) in E.
    rewrite str_replace_get, Hi in E. vm_compute in E. discriminate E. }
  split; [intros; by apply str_replace_absent|].
  split.
  { intros body. unfold confirm_order. by rewrite str_replace_idem. }
  split.
  { intros body event oid Hj Hd w f. unfold confirm_order.
    rewrite Hj. unfold mbind, eff_bind, lift. rewrite Hd. reflexivity. }
  split.
  { intros Hj w f. unfold confirm_order.
    change (str_replace squote dquote dict_style_body) with json_body.
    rewrite Hj. reflexivity. }
  split.
  { intros w f. split; [vm_compute; discriminate|].
    unfold confirm_order.
    assert (json_loads_plain (str_replace squote dquote apostrophe_body) = None)
      as -> by (vm_compute; reflexivity).
    reflexivity. }
  split.
  { intros body w f Hj. unfold process_order. rewrite Hj. reflexivity. }
  split.
  { intros body order_event ev Hj Hd w f.
    by apply (process_order_wire_format json_loads body order_event ev). }
  intros w f. unfold process_order.
  assert (json_loads_plain dict_style_body = None) as -> by (vm_compute; reflexivity).
  reflexivity.
Qed.

Lemma confirmation_body_quotes_witness :
  confirm_order json_loads_plain sum_left scenario_env dict_style_body
    stocked_world None
  = confirm_order_event sum_left scenario_env 1 stocked_world None.
Proof.
  refine (proj1 (proj2 (proj2 (proj2 (proj2 (proj2 (proj2
    (confirmation_body_quotes json_loads_plain sum_left scenario_env)))))))
    _ stocked_world None).
  vm_compute. reflexivity.
Defined.

(** ** The spec's scenarios, run *)

Example scenario_A_reserved :
  process_order_event scenario_A stocked_world None
  = Done tt
      (MkWorld
         (MkDB [OrderRow 1 5 "reserved" None]
               [InventoryRow 10 5 98; InventoryRow 11 5 3]
               [OrderItemRow 1 10 2 9.5%float] [])
         ∅ [json_body])
      None.
Proof. vm_compute. reflexivity. Qed.

Example scenario_B_confirmed :
  ∃ w', confirm_order json_loads_plain sum_left scenario_env json_body
          (reserved_world scenario_A stocked_world) None = Done tt w' None ∧
        order_rows 1 (db w')
        = [OrderRow 1 5 "confirmed"
             (Some "https://store.example/invoices/invoice_order_1.pdf")] ∧
        invoice (db w') = [InvoiceRow 1 1700000000] ∧
        pdf_grand_total <$> invoices w' !! blob_name 1 = Some 19%float.
Proof. eexists. split; [vm_compute; reflexivity|]. vm_compute. auto. Qed.

Example scenario_C_skipped :
  confirm_order json_loads_plain sum_left scenario_env (confirmation_body 999)
    (reserved_world scenario_A stocked_world) None
  = Done tt (reserved_world scenario_A stocked_world) None.
Proof. vm_compute. reflexivity. Qed.

(** * Further properties of the function app *)

(** ** What a reservation leaves alone *)

Lemma upsert_rows_filter_order oid' oid pid q p (t : list order_item_row) :
  oid' ≠ oid →
  filter (λ r, oi_order_id r = oid') (upsert_rows oid pid q p t)
  = filter (λ r, oi_order_id r = oid') t.
Proof.
  intros Hne. unfold upsert_rows. destruct (decide _) as [Hin|Hn].
  - apply (filter_fmap_if_other (λ r, item_key r = (oid, pid))
             (λ r, oi_order_id r = oid') (λ _, OrderItemRow oid pid q p)).
    + intros x Hx Hq. unfold item_key in Hx. congruence.
    + intros x _ Hq. simpl in Hq. congruence.
  - rewrite filter_app, filter_cons_False, filter_nil, app_nil_r
      by (simpl; congruence).
    reflexivity.
Qed.

Lemma upsert_all_filter_key oid its (t : list order_item_row) k :
  k ∉ (λ it, (oid, product_id it)) <$> its →
  filter (λ r, item_key r = k) (upsert_all oid its t)
  = filter (λ r, item_key r = k) t.
Proof.
  induction its as [|it its IH] using rev_ind; intros Hk; [reflexivity|].
  rewrite fmap_app in Hk. apply not_elem_of_app in Hk as [Hk Hit].
  rewrite upsert_all_snoc, upsert_rows_filter_other; [auto|].
  intros ->. apply Hit. simpl. left.
Qed.

Lemma upsert_all_filter_order oid' oid its (t : list order_item_row) :
  oid' ≠ oid →
  filter (λ r, oi_order_id r = oid') (upsert_all oid its t)
  = filter (λ r, oi_order_id r = oid') t.
Proof.
  intros Hne. induction its as [|it its IH] using rev_ind; [reflexivity|].
  rewrite upsert_all_snoc, upsert_rows_filter_order by exact Hne. exact IH.
Qed.

Lemma inventory_row_eta r :
  InventoryRow (inv_product_id r) (inv_warehouse_id r) (inv_quantity r - 0) = r.
Proof. destruct r as [p w q]. simpl. f_equal. lia. Qed.

Lemma occurrences_absent p its :
  p ∉ product_id <$> its → occurrences p its = [].
Proof.
  unfold occurrences. induction its as [|it its IH]; [reflexivity|].
  rewrite fmap_cons, not_elem_of_cons. intros [Hne Hn].
  rewrite filter_cons_False by congruence. auto.
Qed.

(** X1.  A reservation that completes touches nothing but its own order, its
    own (order, product) pairs and the stock of its products in its
    warehouse: the rows of every other order, the order item rows of every
    other key (those of other orders, and those of this order for products the
    event does not name, which stay as they were), the inventory rows of other
    warehouses and of products the event does not name, the invoice table and
    the invoice container are as before. *)
Theorem reservation_frame ev w f w' f' :
  process_order_event ev w f = Done tt w' f' →
  (∀ oid, oid ≠ order_id ev → order_rows oid (db w') = order_rows oid (db w)) ∧
  (∀ oid, oid ≠ order_id ev → rows_of_order oid (db w') = rows_of_order oid (db w)) ∧
  (∀ k, k ∉ event_keys ev →
        filter (λ r, item_key r = k) (order_items (db w'))
        = filter (λ r, item_key r = k) (order_items (db w))) ∧
  (∀ i r, inventory (db w) !! i = Some r →
          inv_warehouse_id r ≠ warehouse_id ev ∨
          inv_product_id r ∉ product_id <$> items ev →
          inventory (db w') !! i = Some r) ∧
  length (inventory (db w')) = length (inventory (db w)) ∧
  invoice (db w') = invoice (db w) ∧
  invoices w' = invoices w.
Proof.
  intros H. apply process_order_event_done in H. subst w'.
  split; [intros oid Hne; by apply order_rows_reserve_other|].
  split; [intros oid Hne; by apply upsert_all_filter_order|].
  split; [intros k Hk; by apply upsert_all_filter_key|].
  split; [|split; [|split; reflexivity]].
  - intros i r Hr Hout. simpl db. rewrite (reserve_inventory_lookup ev _ i r Hr).
    f_equal.
    assert (requested (warehouse_id ev) (items ev) r = 0) as ->;
      [|apply inventory_row_eta].
    unfold requested.
    destruct (decide (inv_warehouse_id r = warehouse_id ev)) as [E|E]; [|reflexivity].
    destruct Hout as [Hw|Hp]; [done|]. by rewrite occurrences_absent.
  - simpl. rewrite decrement_all_spec. apply length_fmap.
Qed.

Lemma reservation_frame_witness :
  inventory (db (reserved_world scenario_A stocked_world)) !! 1%nat
  = Some (InventoryRow 11 5 3).
Proof.
  refine (proj1 (proj2 (proj2 (proj2
    (reservation_frame scenario_A stocked_world None
       (reserved_world scenario_A stocked_world) None _))))
    1%nat (InventoryRow 11 5 3) eq_refl _).
  - vm_compute. reflexivity.
  - right. vm_compute. intros H. apply list_elem_of_singleton in H. discriminate H.
Defined.

(** ** The warehouse of an order that is reserved again *)

Lemma reserve_orders_existing oid wid (t : list order_row) :
  oid ∈ o_order_id <$> t →
  reserve_orders oid wid t
  = (λ r, if decide (o_order_id r = oid) then with_status "reserved" r else r) <$> t.
Proof. intros Hin. unfold reserve_orders. by rewrite decide_True. Qed.

(** X2.  For an order that has a row already, a reservation that completes
    changes the status alone: row by row the orders table keeps its order
    ids, warehouses and invoice addresses, whatever warehouse the event names.
    The stock is taken from the event's warehouse all the same, so an event
    that names another warehouse than the order's row leaves the row on the
    old warehouse. *)
Theorem reservation_keeps_warehouse ev w f w' f' :
  order_rows (order_id ev) (db w) ≠ [] →
  process_order_event ev w f = Done tt w' f' →
  length (orders (db w')) = length (orders (db w)) ∧
  ∀ i r, orders (db w) !! i = Some r →
    ∃ r', orders (db w') !! i = Some r' ∧
          o_order_id r' = o_order_id r ∧
          o_warehouse_id r' = o_warehouse_id r ∧
          o_invoice_blob r' = o_invoice_blob r ∧
          o_status r' = (if decide (o_order_id r = order_id ev)
                         then "reserved" else o_status r).
Proof.
  intros Hne H. apply process_order_event_done in H. subst w'.
  assert (Hin : order_id ev ∈ o_order_id <$> orders (db w)).
  { destruct (decide (order_id ev ∈ o_order_id <$> orders (db w))) as [?|Hn];
      [assumption|]. by apply order_rows_nil in Hn. }
  simpl. rewrite reserve_orders_existing by exact Hin.
  split; [apply length_fmap|].
  intros i r Hr. rewrite list_lookup_fmap, Hr. simpl. eexists. split; [reflexivity|].
  destruct (decide (o_order_id r = order_id ev)); auto.
Qed.

Lemma reservation_keeps_warehouse_witness :
  ∃ r', orders (db (reserved_world (MkOrderEvent 1 6 [])
                      (reserved_world scenario_A stocked_world))) !! 0%nat
        = Some r' ∧ o_warehouse_id r' = 5.
Proof.
  destruct (proj2 (reservation_keeps_warehouse (MkOrderEvent 1 6 [])
              (reserved_world scenario_A stocked_world) None
              (reserved_world (MkOrderEvent 1 6 [])
                 (reserved_world scenario_A stocked_world)) None
              ltac:(vm_compute; discriminate) ltac:(vm_compute; reflexivity))
              0%nat (OrderRow 1 5 "reserved" None) eq_refl)
    as (r' & Hr & _ & Hw & _).
  exists r'. split; [exact Hr | exact Hw].
Defined.

(** ** Where a reservation can fail *)

Lemma engine_begin_Some {A} (body : Eff DB A) w k :
  engine_begin body w (Some k) =
  match k with
  | O => Raised OperationalError w
  | S k1 =>
    match body (db w) (Some k1) with
    | Raised e _ => Raised e w
    | Done a d None => Done a (set_db d w) None
    | Done a d (Some O) => Raised OperationalError w
    | Done a d (Some (S k3)) => Done a (set_db d w) (Some k3)
    end
  end.
Proof.
  unfold engine_begin. destruct k as [|k1]; [reflexivity|]. simpl.
  destruct (body (db w) (Some k1)) as [a d [[|k3]|]|e d]; reflexivity.
Qed.

Lemma execute_Some_O {A} (q : stmt A) d :
  execute q d (Some O) = Raised OperationalError d.
Proof. reflexivity. Qed.

Lemma execute_Some_S {A} (q : stmt A) d k :
  execute q d (Some (S k)) = run_stmt q d (Some k).
Proof. reflexivity. Qed.

Lemma for_each_execute_Some {A} (q : A → stmt unit) (g : A → DB → DB) l d k :
  (∀ x d, q x d = inr (tt, g x d)) →
  match for_each l (λ x, execute (q x)) d (Some k) with
  | Done _ _ f' => (length l ≤ k)%nat ∧ f' = Some (k - length l)%nat
  | Raised e _ => (k < length l)%nat ∧ e = OperationalError
  end.
Proof.
  intros Hq. revert d k. induction l as [|x l IH]; intros d k; simpl.
  - split; [lia|]. f_equal. lia.
  - unfold mbind, eff_bind.
    destruct k as [|k]; [rewrite execute_Some_O; split; [lia|reflexivity]|].
    rewrite execute_Some_S. unfold run_stmt. rewrite Hq. specialize (IH (g x d) k).
    destruct (for_each l (λ x0, execute (q x0)) (g x d) (Some k)) as [u d' f'|e d'].
    + destruct IH as [Hle ->]. split; [lia|reflexivity].
    + destruct IH as [Hlt ->]. split; [lia|reflexivity].
Qed.

Lemma process_order_tx_Some ev d k :
  match process_order_tx ev d (Some k) with
  | Done _ d' f' =>
    (2 * length (items ev) + 2 ≤ k)%nat ∧ d' = reserve_db ev d ∧
    f' = Some (k - (2 * length (items ev) + 2))%nat
  | Raised e _ => (k < 2 * length (items ev) + 2)%nat ∧ e = OperationalError
  end.
Proof.
  destruct (process_order_tx ev d (Some k)) as [u d' f'|e d'] eqn:E.
  - pose proof (stable_process_order_tx ev _ _ _ _ _ E) as Hn.
    rewrite process_order_tx_None in Hn. inversion Hn; subst d'; clear Hn.
    revert E. unfold process_order_tx, mbind, eff_bind.
    destruct k as [|k]; [discriminate|].
    destruct (execute (select_order_id (order_id ev)) d (Some (S k)))
      as [existing d1 f1|e1 d1] eqn:E1; [|discriminate].
    assert (f1 = Some k ∧ d1 = d) as [-> ->].
    { revert E1. unfold execute, mbind, eff_bind, run_stmt. simpl.
      intros H; inversion H; auto. }
    destruct k as [|k].
    { destruct existing; discriminate. }
    match goal with |- match ?m with _ => _ end = _ → _ =>
      destruct m as [u1 d2 f2|e2 d2] eqn:E2; [|discriminate] end.
    assert (f2 = Some k) as ->.
    { revert E2. destruct existing; unfold execute, mbind, eff_bind, run_stmt; simpl.
      - intros H; inversion H; auto.
      - destruct (insert_order (order_id ev) (warehouse_id ev) d) as [?|[? ?]];
          intros H; inversion H; auto. }
    pose proof (for_each_execute_Some
      (λ item, update_inventory (quantity item) (product_id item) (warehouse_id ev))
      (λ x d, set_inventory (decrement_row (quantity x) (product_id x)
                               (warehouse_id ev) <$> inventory d) d)
      (items ev) d2 k (λ _ _, eq_refl)) as H3.
    match goal with |- match ?m with _ => _ end = _ → _ =>
      destruct m as [u3 d3 f3|e3 d3] eqn:E3; [|discriminate] end.
    destruct H3 as [Hle3 ->].
    pose proof (for_each_execute_Some
      (λ item, upsert_order_item (order_id ev) (product_id item)
                 (quantity item) (price item))
      (λ x d, set_order_items (upsert_rows (order_id ev) (product_id x)
                                 (quantity x) (price x) (order_items d)) d)
      (items ev) d3 (k - length (items ev))%nat (λ _ _, eq_refl)) as H4.
    match goal with |- ?m = _ → _ =>
      destruct m as [u4 d4 f4|e4 d4] eqn:E4; [|discriminate] end.
    destruct H4 as [Hle4 ->]. intros H; inversion H; subst.
    split; [lia|]. split; [reflexivity|]. f_equal. lia.
  - revert E. unfold process_order_tx, mbind, eff_bind.
    destruct k as [|k]; [intros H; inversion H; split; [lia|reflexivity]|].
    destruct (execute (select_order_id (order_id ev)) d (Some (S k)))
      as [existing d1 f1|e1 d1] eqn:E1; [|discriminate].
    assert (f1 = Some k ∧ d1 = d ∧
            existing = o_order_id <$> head (order_rows (order_id ev) d))
      as (-> & -> & Hex).
    { revert E1. unfold execute, mbind, eff_bind, run_stmt. simpl.
      intros H; inversion H; auto. }
    destruct k as [|k].
    { destruct existing; intros H; inversion H; (split; [lia|reflexivity]). }
    match goal with |- match ?m with _ => _ end = _ → _ =>
      destruct m as [u1 d2 f2|e2 d2] eqn:E2 end.
    2: { exfalso. revert E2.
         destruct existing; unfold execute, mbind, eff_bind, run_stmt; simpl;
           [discriminate|].
         unfold insert_order. rewrite decide_False; [discriminate|].
         apply head_filter_order_None. unfold order_rows in Hex.
         destruct (head (filter (λ r, o_order_id r = order_id ev) (orders d)));
           [discriminate | reflexivity]. }
    assert (f2 = Some k) as ->.
    { revert E2. destruct existing; unfold execute, mbind, eff_bind, run_stmt; simpl.
      - intros H; inversion H; auto.
      - destruct (insert_order (order_id ev) (warehouse_id ev) d) as [?|[? ?]];
          intros H; inversion H; auto. }
    pose proof (for_each_execute_Some
      (λ item, update_inventory (quantity item) (product_id item) (warehouse_id ev))
      (λ x d, set_inventory (decrement_row (quantity x) (product_id x)
                               (warehouse_id ev) <$> inventory d) d)
      (items ev) d2 k (λ _ _, eq_refl)) as H3.
    match goal with |- match ?m with _ => _ end = _ → _ =>
      destruct m as [u3 d3 f3|e3 d3] eqn:E3 end.
    2: { destruct H3 as [Hlt ->]. intros H; inversion H. split; [lia|reflexivity]. }
    destruct H3 as [Hle3 ->].
    pose proof (for_each_execute_Some
      (λ item, upsert_order_item (order_id ev) (product_id item)
                 (quantity item) (price item))
      (λ x d, set_order_items (upsert_rows (order_id ev) (product_id x)
                                 (quantity x) (price x) (order_items d)) d)
      (items ev) d3 (k - length (items ev))%nat (λ _ _, eq_refl)) as H4.
    match goal with |- ?m = _ → _ =>
      destruct m as [u4 d4 f4|e4 d4] eqn:E4; [discriminate|] end.
    destruct H4 as [Hlt ->]. intros H; inversion H. split; [lia|reflexivity].
Qed.

Lemma process_order_event_Some ev w k :
  process_order_event ev w (Some k) =
  if decide (k < reservation_cost ev)%nat then Raised OperationalError w
  else if decide (k = reservation_cost ev)
       then Raised ServiceBusError (set_db (reserve_db ev (db w)) w)
       else Done tt (reserved_world ev w) (Some (k - reservation_cost ev - 1)%nat).
Proof.
  unfold reservation_cost, process_order_event, mbind, eff_bind.
  rewrite engine_begin_Some. destruct k as [|k].
  { rewrite decide_True by lia. reflexivity. }
  pose proof (process_order_tx_Some ev (db w) k) as Htx.
  destruct (process_order_tx ev (db w) (Some k)) as [u d f1|e d].
  - destruct Htx as (Hle & -> & ->).
    destruct (k - (2 * length (items ev) + 2))%nat as [|[|j]] eqn:Ej.
    + rewrite decide_True by lia. reflexivity.
    + rewrite decide_False, decide_True by lia. reflexivity.
    + rewrite !decide_False by lia. unfold send_to_confirmation_queue,
        mbind, eff_bind, tick, modify. destruct u. do 2 f_equal. lia.
  - destruct Htx as [Hlt ->]. rewrite decide_True by lia. reflexivity.
Qed.

(** X3.  A reservation of n items makes 2n+4 round trips to the store and one
    to the queue.  A fault in any of the store's leaves the world as it was
    and is raised as the store's error; no other error comes out of the block
    (the insert is guarded by the lookup, so the key is never refused).  A
    fault of the queue is raised after the commit: the order is reserved and
    the stock taken, and no confirmation is queued.  With no fault up to there
    the run completes. *)
Theorem reservation_fault_profile ev w :
  (∀ k, (k < reservation_cost ev)%nat →
     process_order_event ev w (Some k) = Raised OperationalError w) ∧
  process_order_event ev w (Some (reservation_cost ev))
  = Raised ServiceBusError (set_db (reserve_db ev (db w)) w) ∧
  (∀ k, (reservation_cost ev < k)%nat →
     process_order_event ev w (Some k)
     = Done tt (reserved_world ev w) (Some (k - reservation_cost ev - 1)%nat)).
Proof.
  split; [|split].
  - intros k Hk. rewrite process_order_event_Some, decide_True by lia. reflexivity.
  - rewrite process_order_event_Some, decide_False, decide_True by lia. reflexivity.
  - intros k Hk. rewrite process_order_event_Some, !decide_False by lia. reflexivity.
Qed.

Lemma reservation_fault_profile_witness :
  process_order_event scenario_A stocked_world (Some 5%nat)
  = Raised OperationalError stocked_world.
Proof.
  apply (proj1 (reservation_fault_profile scenario_A stocked_world) 5%nat).
  vm_compute. lia.
Defined.

(** ** The primary keys are kept *)

Lemma process_order_event_db ev w f :
  db (world_of (process_order_event ev w f)) = db w ∨
  db (world_of (process_order_event ev w f)) = reserve_db ev (db w).
Proof.
  destruct f as [k|].
  - rewrite process_order_event_Some.
    destruct (decide (k < reservation_cost ev)%nat); [by left|].
    destruct (decide (k = reservation_cost ev)); by right.
  - rewrite process_order_event_None. by right.
Qed.

Lemma fmap_if_order_ids oid (g : order_row → order_row) (t : list order_row) :
  (∀ r, o_order_id (g r) = o_order_id r) →
  o_order_id <$> ((λ r, if decide (o_order_id r = oid) then g r else r) <$> t)
  = o_order_id <$> t.
Proof.
  intros Hg. rewrite <- list_fmap_compose. apply fmap_ext_all. intros r. simpl.
  destruct (decide (o_order_id r = oid)); auto.
Qed.

Lemma reserve_db_keys ev d : ledger_keys_unique d → ledger_keys_unique (reserve_db ev d).
Proof.
  intros [Ho Hi]. split; simpl.
  - unfold reserve_orders. destruct (decide _) as [Hin|Hn].
    + by rewrite fmap_if_order_ids.
    + rewrite fmap_app. apply NoDup_app. split; [exact Ho|].
      split; [|apply NoDup_singleton].
      intros x Hx Hx'. apply list_elem_of_singleton in Hx'. simpl in Hx'. by subst.
  - by apply upsert_all_NoDup.
Qed.

Lemma confirm_db_keys env oid d :
  ledger_keys_unique d → ledger_keys_unique (confirm_db env oid d).
Proof. intros [Ho Hi]. split; simpl; [by rewrite fmap_if_order_ids | exact Hi]. Qed.

Lemma invoice_blob_db_keys env oid d :
  ledger_keys_unique d → ledger_keys_unique (invoice_blob_db env oid d).
Proof. intros [Ho Hi]. split; simpl; [by rewrite fmap_if_order_ids | exact Hi]. Qed.

(** X4.  On a ledger whose keys are unique, one row per order id and one
    order item row per (order, product) pair, every invocation of either
    handler, completed or failed at any point, leaves a ledger whose keys are
    unique: the handlers never make a second row for a key. *)
Theorem handlers_keep_keys py_sum w :
  ledger_keys_unique (db w) →
  (∀ ev f, ledger_keys_unique (db (world_of (process_order_event ev w f)))) ∧
  (∀ env oid f,
     ledger_keys_unique (db (world_of (confirm_order_event py_sum env oid w f)))).
Proof.
  intros Hk. split.
  - intros ev f. destruct (process_order_event_db ev w f) as [-> | ->];
      [exact Hk | by apply reserve_db_keys].
  - intros env oid f.
    pose proof (confirm_order_event_db py_sum env oid w f) as Hdb.
    destruct (confirm_order_event py_sum env oid w f) as [u w' f'|e w']; simpl;
      destruct Hdb as [-> | ->]; auto using confirm_db_keys, invoice_blob_db_keys.
Qed.

Lemma handlers_keep_keys_witness :
  ledger_keys_unique
    (db (world_of (process_order_event twice_10 stocked_world None))).
Proof.
  apply (proj1 (handlers_keep_keys sum_left stocked_world
                  (conj (NoDup_nil_2 : NoDup (o_order_id <$> orders stocked_db))
                        (NoDup_nil_2 : NoDup (item_key <$> order_items stocked_db))))
           twice_10 None).
Defined.

(** ** The chain from the reservation to the confirmation *)

Lemma digit_of_pretty_N_char d :
  (d < 10)%N → digit_of (pretty_N_char d) = Some (Z.of_N d).
Proof.
  intros Hd.
  assert (d = 0 ∨ d = 1 ∨ d = 2 ∨ d = 3 ∨ d = 4 ∨ d = 5 ∨ d = 6 ∨ d = 7
          ∨ d = 8 ∨ d = 9)%N as Hc by lia.
  repeat (destruct Hc as [->|Hc]; [reflexivity|]). subst. reflexivity.
Qed.

Lemma read_digits_pretty x s :
  read_digits 0 (pretty_N_go x s) = read_digits (Z.of_N x) s.
Proof.
  revert s. induction (N.lt_wf_0 x) as [x _ IH]. intros s.
  destruct (decide (x = 0)%N) as [->|Hx]; [by rewrite pretty_N_go_0|].
  rewrite pretty_N_go_step by lia. rewrite IH by (apply N.div_lt; lia).
  simpl. rewrite digit_of_pretty_N_char by (apply N.mod_lt; lia).
  f_equal. rewrite (N.div_mod x 10) at 3 by lia. lia.
Qed.

Lemma pretty_N_go_head x s :
  (0 < x)%N →
  ∃ d s', (1 ≤ d ≤ 9)%N ∧ pretty_N_go x s = String (pretty_N_char d) s'.
Proof.
  revert s. induction (N.lt_wf_0 x) as [x _ IH]. intros s Hx.
  rewrite pretty_N_go_step by exact Hx.
  destruct (decide (x < 10)%N) as [Hlt|Hge].
  - rewrite N.div_small, pretty_N_go_0 by exact Hlt.
    exists x, s. rewrite N.mod_small by exact Hlt. split; [lia | reflexivity].
  - apply IH; [apply N.div_lt; lia|]. apply N.div_str_pos. lia.
Qed.

Lemma pretty_N_go_app x s t : pretty_N_go x s +:+ t = pretty_N_go x (s +:+ t).
Proof.
  revert s. induction (N.lt_wf_0 x) as [x _ IH]. intros s.
  destruct (decide (x = 0)%N) as [->|Hx]; [by rewrite !pretty_N_go_0|].
  rewrite (pretty_N_go_step x s), (pretty_N_go_step x (s +:+ t)) by lia.
  rewrite IH by (apply N.div_lt; lia). reflexivity.
Qed.

Lemma read_value_digit fuel d s :
  (1 ≤ d ≤ 9)%N →
  read_value (S fuel) (String (pretty_N_char d) s)
  = match read_natural (String (pretty_N_char d) s) with
    | Some (n, rest) => Some (JInt n, rest)
    | None => None
    end.
Proof.
  intros Hd.
  assert (d = 1 ∨ d = 2 ∨ d = 3 ∨ d = 4 ∨ d = 5 ∨ d = 6 ∨ d = 7
          ∨ d = 8 ∨ d = 9)%N as Hc by lia.
  repeat (destruct Hc as [->|Hc]; [reflexivity|]). subst. reflexivity.
Qed.

(** A positive number in decimal, followed by a closing brace, is read back
    as the number. *)
Lemma read_natural_pretty x :
  (0 < x)%N → read_natural (pretty_N_go x "}") = Some (Z.of_N x, "}").
Proof.
  intros Hx. pose proof (read_digits_pretty x "}") as Hd.
  destruct (pretty_N_go_head x "}" Hx) as (d & s' & Hd19 & E). rewrite E in *.
  unfold read_natural. simpl in Hd.
  rewrite digit_of_pretty_N_char in * by lia.
  assert (Z.of_N d ≠ 0) by lia.
  destruct (Z.of_N d) as [|p|p] eqn:Ed; [lia| |lia].
  replace (10 * 0 + Z.pos p) with (Z.pos p) in Hd by lia.
  rewrite Hd. reflexivity.
Qed.

Lemma read_value_natural fuel x :
  (0 < x)%N →
  read_value (S fuel) (pretty_N_go x "}") = Some (JInt (Z.of_N x), "}").
Proof.
  intros Hx. pose proof (read_natural_pretty x Hx) as Hn.
  destruct (pretty_N_go_head x "}" Hx) as (d & s' & Hd19 & E). rewrite E in *.
  rewrite read_value_digit by exact Hd19. rewrite Hn. reflexivity.
Qed.

Lemma read_value_minus fuel s :
  read_value (S fuel) (String "-" s)
  = match read_natural s with
    | Some (n, rest) => Some (JInt (- n), rest)
    | None => None
    end.
Proof. reflexivity. Qed.

Lemma read_value_pretty fuel (z : Z) :
  read_value (S fuel) (pretty z +:+ "}") = Some (JInt z, "}").
Proof.
  destruct z as [|p|p].
  - reflexivity.
  - change (pretty (Z.pos p)) with (pretty_N_go (N.pos p) "").
    rewrite pretty_N_go_app. apply (read_value_natural fuel (N.pos p)). lia.
  - change (pretty (Z.neg p)) with ("-" +:+ pretty_N_go (N.pos p) "").
    change (("-" +:+ pretty_N_go (N.pos p) "") +:+ "}")
      with (String "-" (pretty_N_go (N.pos p) "" +:+ "}")).
    rewrite pretty_N_go_app, read_value_minus. change ("" +:+ "}") with "}".
    rewrite (read_natural_pretty (N.pos p)) by lia. reflexivity.
Qed.

Lemma pretty_N_char_plain d s :
  skip_blanks (String (pretty_N_char d) s) = String (pretty_N_char d) s ∧
  str_replace squote dquote (String (pretty_N_char d) s)
  = String (pretty_N_char d) (str_replace squote dquote s).
Proof.
  unfold pretty_N_char. repeat case_match; split; reflexivity.
Qed.

Lemma str_replace_pretty_N_go x s :
  str_replace squote dquote (pretty_N_go x s)
  = pretty_N_go x (str_replace squote dquote s).
Proof.
  revert s. induction (N.lt_wf_0 x) as [x _ IH]. intros s.
  destruct (decide (x = 0)%N) as [->|Hx]; [by rewrite !pretty_N_go_0|].
  rewrite (pretty_N_go_step x s),
    (pretty_N_go_step x (str_replace squote dquote s)) by lia.
  rewrite IH by (apply N.div_lt; lia).
  by rewrite (proj2 (pretty_N_char_plain _ _)).
Qed.

Lemma pretty_brace_plain (z : Z) :
  skip_blanks (pretty z +:+ "}") = pretty z +:+ "}" ∧
  str_replace squote dquote (pretty z +:+ "}") = pretty z +:+ "}".
Proof.
  destruct z as [|p|p].
  - split; reflexivity.
  - change (pretty (Z.pos p)) with (pretty_N_go (N.pos p) "").
    rewrite pretty_N_go_app. change ("" +:+ "}") with "}". split.
    + destruct (pretty_N_go_head (N.pos p) "}") as (d & s' & _ & ->); [lia|].
      apply pretty_N_char_plain.
    + apply str_replace_pretty_N_go.
  - change (pretty (Z.neg p) +:+ "}")
      with (String "-" (pretty_N_go (N.pos p) "" +:+ "}")).
    rewrite pretty_N_go_app. change ("" +:+ "}") with "}".
    split; [reflexivity|]. simpl. f_equal. apply str_replace_pretty_N_go.
Qed.

Lemma read_value_order_id fuel t v :
  skip_blanks t = t →
  read_value fuel t = Some (v, "}") →
  read_value (S (S fuel))
    ("{" +:+ String dquote "order_id" +:+ String dquote ": " +:+ t)
  = Some (JObject [("order_id", v)], "").
Proof.
  intros Hs Hv. cbv [String.append]. simpl. rewrite Hs, Hv. reflexivity.
Qed.

(** [json.dumps] of a confirmation, read back. *)
Lemma json_loads_confirmation_body oid :
  json_loads_plain (confirmation_body oid) = Some (JObject [("order_id", JInt oid)]).
Proof.
  unfold json_loads_plain.
  assert (skip_blanks (confirmation_body oid) = confirmation_body oid) as ->
    by reflexivity.
  assert (∃ k, (2 * String.length (confirmation_body oid) + 2)%nat = S (S (S k)))
    as [k ->].
  { assert (1 ≤ String.length (confirmation_body oid))%nat as Hlen.
    { change (confirmation_body oid)
        with (String "{" (String dquote "order_id" +:+ String dquote ": "
                            +:+ pretty oid +:+ "}")).
      simpl String.length. lia. }
    exists (2 * String.length (confirmation_body oid) - 1)%nat. lia. }
  unfold confirmation_body.
  rewrite (read_value_order_id (S k) (pretty oid +:+ "}") (JInt oid)).
  - reflexivity.
  - apply pretty_brace_plain.
  - apply read_value_pretty.
Qed.

Lemma str_replace_confirmation_body oid :
  str_replace squote dquote (confirmation_body oid) = confirmation_body oid.
Proof.
  unfold confirmation_body. cbv [String.append]. simpl.
  do 13 f_equal. apply pretty_brace_plain.
Qed.

Lemma process_order_event_queue ev w f :
  match process_order_event ev w f with
  | Done _ w' _ =>
    order_confirmation_queue w'
    = order_confirmation_queue w ++ [confirmation_body (order_id ev)]
  | Raised _ w' => order_confirmation_queue w' = order_confirmation_queue w
  end.
Proof.
  destruct f as [k|].
  - rewrite process_order_event_Some.
    destruct (decide (k < reservation_cost ev)%nat); [reflexivity|].
    destruct (decide (k = reservation_cost ev)); reflexivity.
  - by rewrite process_order_event_None.
Qed.

(** X5.  The chain of the two handlers.  A reservation that completes puts
    one message at the end of the confirmation queue, the JSON text of a dict
    with the order id, and a reservation that raises puts none.  The
    confirmation handler reads that message back as the same order id, for
    every order id: the text has no apostrophe for the handler to replace, and
    it parses to the dict it was made from, so delivering the message runs
    the confirmation of that order. *)
Theorem reservation_chains_to_confirmation py_sum env ev :
  (∀ w f,
     match process_order_event ev w f with
     | Done _ w' _ =>
       order_confirmation_queue w'
       = order_confirmation_queue w ++ [confirmation_body (order_id ev)]
     | Raised _ w' => order_confirmation_queue w' = order_confirmation_queue w
     end) ∧
  str_replace squote dquote (confirmation_body (order_id ev))
  = confirmation_body (order_id ev) ∧
  json_loads_plain (confirmation_body (order_id ev))
  = Some (JObject [("order_id", JInt (order_id ev))]) ∧
  (∀ w f,
     confirm_order json_loads_plain py_sum env (confirmation_body (order_id ev)) w f
     = confirm_order_event py_sum env (order_id ev) w f).
Proof.
  split; [apply process_order_event_queue|].
  split; [apply str_replace_confirmation_body|].
  split; [apply json_loads_confirmation_body|].
  intros w f. unfold confirm_order.
  rewrite str_replace_confirmation_body, json_loads_confirmation_body.
  reflexivity.
Qed.

(** ** Where a confirmation can fail *)

Lemma confirm_order_tx_Some py_sum env oid d k o products :
  head (order_rows oid d) = Some o →
  line_totals (rows_of_order oid d) = inr products →
  match confirm_order_tx py_sum env oid d (Some k) with
  | Done r d' f' =>
    (4 ≤ k)%nat ∧ r = Some (o, rows_of_order oid d, py_sum products) ∧
    d' = confirm_db env oid d ∧ f' = Some (k - 4)%nat
  | Raised e _ => (k < 4)%nat ∧ e = OperationalError
  end.
Proof.
  intros Ho Hp. unfold confirm_order_tx, mbind, eff_bind.
  destruct k as [|k]; [rewrite execute_Some_O; split; [lia|reflexivity]|].
  rewrite execute_Some_S. unfold run_stmt at 1, select_order.
  fold (order_rows oid d). rewrite Ho.
  destruct k as [|k]; [rewrite execute_Some_O; split; [lia|reflexivity]|].
  rewrite execute_Some_S. unfold run_stmt at 1, update_order_status.
  destruct k as [|k]; [rewrite execute_Some_O; split; [lia|reflexivity]|].
  rewrite execute_Some_S. unfold run_stmt at 1, select_order_items.
  simpl order_items. fold (rows_of_order oid d). unfold lift. rewrite Hp.
  destruct k as [|k]; [rewrite execute_Some_O; split; [lia|reflexivity]|].
  rewrite execute_Some_S. unfold run_stmt, insert_invoice. simpl.
  split; [lia|]. split; [reflexivity|]. split; [reflexivity|]. f_equal. lia.
Qed.

(** X6.  A confirmation of an order that is there, with quantities in the
    float range, makes ten round trips: six to the store for the first block,
    one upload, three to the store for the second block.  A fault in the first
    block leaves the world as it was.  A fault of the upload is raised with
    the order confirmed and its invoice row stored, but no blob and no invoice
    address.  A fault in the second block is raised with the blob uploaded as
    well, and the invoice address still missing.  With no fault up to the
    tenth the run completes. *)
Theorem confirmation_fault_profile py_sum env oid w o products lines :
  head (order_rows oid (db w)) = Some o →
  line_totals (rows_of_order oid (db w)) = inr products →
  pdf_rows (rows_of_order oid (db w)) = inr lines →
  let doc := invoice_doc env oid o lines (py_sum products) in
  (∀ k, (k < 6)%nat →
     confirm_order_event py_sum env oid w (Some k) = Raised OperationalError w) ∧
  confirm_order_event py_sum env oid w (Some 6%nat)
  = Raised BlobStorageError (set_db (confirm_db env oid (db w)) w) ∧
  (∀ k, (7 ≤ k < 10)%nat →
     confirm_order_event py_sum env oid w (Some k)
     = Raised OperationalError (uploaded_world env oid doc w)) ∧
  (∀ k, (10 ≤ k)%nat →
     confirm_order_event py_sum env oid w (Some k)
     = Done tt (confirmed_world env oid doc w) (Some (k - 10)%nat)).
Proof.
  intros Ho Hp Hl doc.
  assert (Hfirst : ∀ k, engine_begin (confirm_order_tx py_sum env oid) w (Some k) =
    if decide (k < 6)%nat then Raised OperationalError w
    else Done (Some (o, rows_of_order oid (db w), py_sum products))
           (set_db (confirm_db env oid (db w)) w) (Some (k - 6)%nat)).
  { intros k. rewrite engine_begin_Some. destruct k as [|k]; [reflexivity|].
    pose proof (confirm_order_tx_Some py_sum env oid (db w) k o products Ho Hp) as H.
    destruct (confirm_order_tx py_sum env oid (db w) (Some k)) as [r d' f'|e d'].
    - destruct H as (Hle & -> & -> & ->).
      destruct (k - 4)%nat as [|j] eqn:Ej.
      + rewrite decide_True by lia. reflexivity.
      + rewrite decide_False by lia. do 2 f_equal. lia.
    - destruct H as [Hlt ->]. rewrite decide_True by lia. reflexivity. }
  assert (Hrest : ∀ j, publish_invoice env oid
      (Some (o, rows_of_order oid (db w), py_sum products))
      (set_db (confirm_db env oid (db w)) w) (Some j) =
    match j with
    | 0%nat => Raised BlobStorageError (set_db (confirm_db env oid (db w)) w)
    | 1%nat | 2%nat | 3%nat => Raised OperationalError (uploaded_world env oid doc w)
    | S (S (S (S j'))) => Done tt (confirmed_world env oid doc w) (Some j')
    end).
  { intros j. unfold publish_invoice, mbind, eff_bind, lift. rewrite Hl.
    destruct j as [|[|[|[|j']]]]; reflexivity. }
  unfold confirm_order_event, mbind, eff_bind.
  split; [|split; [|split]].
  - intros k Hk. rewrite Hfirst, decide_True by exact Hk. reflexivity.
  - rewrite Hfirst, decide_False by lia. apply (Hrest 0%nat).
  - intros k Hk. rewrite Hfirst, decide_False by lia. rewrite Hrest.
    destruct (k - 6)%nat as [|[|[|[|j']]]] eqn:Ej; try lia; reflexivity.
  - intros k Hk. rewrite Hfirst, decide_False by lia. rewrite Hrest.
    destruct (k - 6)%nat as [|[|[|[|j']]]] eqn:Ej; try lia.
    do 2 f_equal. lia.
Qed.

Lemma confirmation_fault_profile_witness :
  confirm_order_event sum_left scenario_env 1
    (reserved_world scenario_A stocked_world) (Some 6%nat)
  = Raised BlobStorageError
      (set_db (confirm_db scenario_env 1 (db (reserved_world scenario_A stocked_world)))
         (reserved_world scenario_A stocked_world)).
Proof.
  refine (proj1 (proj2
    (confirmation_fault_profile sum_left scenario_env 1
       (reserved_world scenario_A stocked_world)
       (OrderRow 1 5 "reserved" None) [19%float] [(10, 2, 9.5%float, 19%float)]
       _ _ _))); vm_compute; reflexivity.
Defined.

(** ** What a confirmation records *)

Lemma order_rows_confirm_other env oid doc w oid' :
  oid' ≠ oid →
  order_rows oid' (db (confirmed_world env oid doc w)) = order_rows oid' (db w).
Proof.
  intros Hne. unfold order_rows, confirmed_world, invoice_blob_db, confirm_db; simpl.
  rewrite (filter_fmap_if_other (λ r, o_order_id r = oid)
             (λ r, o_order_id r = oid')) by (simpl; congruence).
  apply (filter_fmap_if_other (λ r, o_order_id r = oid)
           (λ r, o_order_id r = oid')); simpl; congruence.
Qed.

(** X7.  A confirmation that completes for an order that is there appends one
    invoice row, with the order id and the store's time; leaves every row of
    the order confirmed and pointing at the blob just uploaded, whose address
    is the account's, the container [invoices] and the blob name, with order
    id and warehouse as they were; and touches no other order, no inventory
    row, no order item, no other blob and not the queue.  The uploaded
    invoice carries the order id, the host's time, the warehouse of the
    order's row and one line for each order item row, in the table's order. *)
Theorem confirmation_records py_sum env oid w f w' f' o :
  head (order_rows oid (db w)) = Some o →
  confirm_order_event py_sum env oid w f = Done tt w' f' →
  invoice (db w') = invoice (db w) ++ [InvoiceRow oid (db_now env)] ∧
  order_rows oid (db w')
  = (λ r, OrderRow oid (o_warehouse_id r) "confirmed"
            (Some (account_url env +:+ "/invoices/" +:+ blob_name oid)))
      <$> order_rows oid (db w) ∧
  (∀ oid', oid' ≠ oid → order_rows oid' (db w') = order_rows oid' (db w)) ∧
  inventory (db w') = inventory (db w) ∧
  order_items (db w') = order_items (db w) ∧
  order_confirmation_queue w' = order_confirmation_queue w ∧
  (∀ name, name ≠ blob_name oid → invoices w' !! name = invoices w !! name) ∧
  ∃ doc, invoices w' !! blob_name oid = Some doc ∧
         pdf_invoice_no doc = oid ∧ pdf_order_id doc = oid ∧
         pdf_date doc = local_now env ∧
         pdf_warehouse_id doc = o_warehouse_id o ∧
         (λ l, (l.1.1.1, l.1.1.2, l.1.2)) <$> pdf_lines doc
         = (λ r, (oi_product_id r, oi_quantity r, oi_price r))
             <$> rows_of_order oid (db w).
Proof.
  intros Ho H. apply confirm_order_event_done in H. rewrite Ho in H.
  destruct H as (products & lines & Hp & Hl & _ & ->).
  split; [reflexivity|]. split.
  { rewrite order_rows_confirmed, <- list_fmap_compose. apply list_fmap_ext.
    intros i r Hr. apply list_elem_of_lookup_2, list_elem_of_filter in Hr as [<- _].
    reflexivity. }
  split; [intros; by apply order_rows_confirm_other|].
  do 3 (split; [reflexivity|]).
  split; [intros name Hne; simpl; by rewrite lookup_insert_ne|].
  eexists. split; [apply lookup_insert_eq|]. do 4 (split; [reflexivity|]).
  simpl. destruct (pdf_rows_of_line_totals _ _ Hp) as (lines' & Hl' & _ & E).
  rewrite Hl in Hl'. inversion Hl'; subst. exact E.
Qed.

Lemma confirmation_records_witness :
  order_rows 1
    (db (confirmed_world scenario_env 1
           (invoice_doc scenario_env 1 (OrderRow 1 5 "reserved" None)
              [(10, 2, 9.5%float, 19%float)] 19%float)
           (reserved_world scenario_A stocked_world)))
  = [OrderRow 1 5 "confirmed"
       (Some "https://store.example/invoices/invoice_order_1.pdf")].
Proof.
  refine (proj1 (proj2
    (confirmation_records sum_left scenario_env 1
       (reserved_world scenario_A stocked_world) None _ None
       (OrderRow 1 5 "reserved" None) _ _))); vm_compute; reflexivity.
Defined.

(** X8.  A confirmation delivered twice for one order, both runs completing:
    the invoice table gets two rows for the order, one from each run; the
    second invoice has the lines and the grand total of the first; the
    invoice container holds the second document under the same name; and
    inventory and order items are as before the first. *)
Theorem confirmation_redelivered py_sum env1 env2 oid w f w1 f1 g w2 g2 :
  order_rows oid (db w) ≠ [] →
  confirm_order_event py_sum env1 oid w f = Done tt w1 f1 →
  confirm_order_event py_sum env2 oid w1 g = Done tt w2 g2 →
  invoice (db w2)
  = invoice (db w) ++ [InvoiceRow oid (db_now env1); InvoiceRow oid (db_now env2)] ∧
  inventory (db w2) = inventory (db w) ∧
  order_items (db w2) = order_items (db w) ∧
  ∃ doc1 doc2,
    invoices w1 !! blob_name oid = Some doc1 ∧
    invoices w2 !! blob_name oid = Some doc2 ∧
    pdf_lines doc2 = pdf_lines doc1 ∧
    pdf_grand_total doc2 = pdf_grand_total doc1 ∧
    pdf_date doc2 = local_now env2.
Proof.
  intros Hne H1 H2.
  destruct (head_order_rows_Some _ _ Hne) as [o Ho].
  apply confirm_order_event_done in H1. rewrite Ho in H1.
  destruct H1 as (products & lines & Hp & Hl & _ & ->).
  apply confirm_order_event_done in H2.
  assert (Hne' : order_rows oid
            (db (confirmed_world env1 oid
                   (invoice_doc env1 oid o lines (py_sum products)) w)) ≠ []).
  { rewrite order_rows_confirmed. intros E.
    by apply fmap_nil_inv, fmap_nil_inv in E. }
  destruct (head_order_rows_Some _ _ Hne') as [o' Ho']. rewrite Ho' in H2.
  destruct H2 as (products' & lines' & Hp' & Hl' & _ & ->).
  change (rows_of_order oid (db (confirmed_world env1 oid
            (invoice_doc env1 oid o lines (py_sum products)) w)))
    with (rows_of_order oid (db w)) in Hp', Hl'.
  rewrite Hp in Hp'. rewrite Hl in Hl'. inversion Hp'; inversion Hl'; subst.
  split; [simpl; by rewrite <- app_assoc|]. do 2 (split; [reflexivity|]).
  do 2 eexists. split; [apply lookup_insert_eq|].
  split; [apply lookup_insert_eq|]. auto.
Qed.

Lemma confirmation_redelivered_witness :
  ∃ w1 w2,
    confirm_order_event sum_left scenario_env 1
      (reserved_world scenario_A stocked_world) None = Done tt w1 None ∧
    confirm_order_event sum_left scenario_env 1 w1 None = Done tt w2 None ∧
    invoice (db w2) = [InvoiceRow 1 1700000000; InvoiceRow 1 1700000000].
Proof.
  do 2 eexists. split; [vm_compute; reflexivity|].
  split; [vm_compute; reflexivity|].
  refine (proj1 (confirmation_redelivered sum_left scenario_env scenario_env 1
    (reserved_world scenario_A stocked_world) None _ None None _ None _ _ _));
    vm_compute; (reflexivity || discriminate).
Defined.

(** ** Bodies that are not events *)

Lemma process_order_block_missing_quantity oid wid im rest d :
  dict_get "quantity" im = None →
  ∃ d', process_order_block (JInt oid) (JInt wid) (JArray (JObject im :: rest)) d None
        = Raised KeyError d'.
Proof.
  intros Hq. unfold process_order_block, mbind, eff_bind, lift. simpl.
  rewrite Hq.
  destruct (head (filter (λ r, o_order_id r = oid) (orders d))) as [r|] eqn:E; simpl.
  - eauto.
  - rewrite execute_None. unfold run_stmt, insert_order.
    rewrite decide_False by (by apply head_filter_order_None). eauto.
Qed.

(** X9.  A body the parser refuses is raised as the parser's error, and a body
    that parses to a dict without [order_id], [warehouse_id] or [items] (for
    the confirmation handler, judged after the replacement of the
    apostrophes: without [order_id]) as [KeyError], whatever the other
    members are, before the handler has opened a connection: the world is as
    it was under every fault schedule, the one that fails the first operation
    included.  The items are looked at inside the block only: an empty dict in
    their place is an event without items, and an item that lacks its
    [quantity] is raised as [KeyError] from inside the block, which is rolled
    back, unless the store fails first. *)
Theorem malformed_bodies json_loads py_sum env body w f :
  (json_loads body = None →
   process_order json_loads body w f = Raised JSONDecodeError w) ∧
  (∀ members,
     json_loads body = Some (JObject members) →
     dict_get "order_id" members = None ∨
     dict_get "warehouse_id" members = None ∨
     dict_get "items" members = None →
     process_order json_loads body w f = Raised KeyError w) ∧
  (json_loads (str_replace squote dquote body) = None →
   confirm_order json_loads py_sum env body w f = Raised JSONDecodeError w) ∧
  (∀ members,
     json_loads (str_replace squote dquote body) = Some (JObject members) →
     dict_get "order_id" members = None →
     confirm_order json_loads py_sum env body w f = Raised KeyError w) ∧
  (∀ members oid wid,
     json_loads body = Some (JObject members) →
     dict_get "order_id" members = Some (JInt oid) →
     dict_get "warehouse_id" members = Some (JInt wid) →
     dict_get "items" members = Some (JObject []) →
     process_order json_loads body w f
     = process_order_event (MkOrderEvent oid wid []) w f) ∧
  (∀ members oid wid im rest,
     json_loads body = Some (JObject members) →
     dict_get "order_id" members = Some (JInt oid) →
     dict_get "warehouse_id" members = Some (JInt wid) →
     dict_get "items" members = Some (JArray (JObject im :: rest)) →
     dict_get "quantity" im = None →
     process_order json_loads body w None = Raised KeyError w ∧
     process_order json_loads body w (Some 0%nat) = Raised OperationalError w).
Proof.
  split; [intros H; unfold process_order; by rewrite H|].
  split.
  { intros members Hj Hmiss. unfold process_order. rewrite Hj.
    unfold mbind, eff_bind, lift, subscript.
    destruct (dict_get "order_id" members) as [v|] eqn:E1; [|reflexivity].
    destruct (dict_get "warehouse_id" members) as [v'|] eqn:E2; [|reflexivity].
    destruct (dict_get "items" members) as [v''|] eqn:E3; [|reflexivity].
    destruct Hmiss as [|[|]]; discriminate. }
  split; [intros H; unfold confirm_order; by rewrite H|].
  split.
  { intros members Hj Hmiss. unfold confirm_order. rewrite Hj.
    unfold mbind, eff_bind, lift, confirmation_of_json, subscript, exn_bind.
    by rewrite Hmiss. }
  split.
  { intros members oid wid Hj H1 H2 H3. unfold process_order. rewrite Hj.
    unfold mbind, eff_bind, lift, subscript. rewrite H1, H2, H3.
    unfold process_order_event, mbind, eff_bind, engine_begin.
    destruct (tick OperationalError w f) as [u w1 f1|e w1]; [|reflexivity].
    assert (Hb : ∀ d f, process_order_block (JInt oid) (JInt wid) (JObject []) d f
                 = process_order_tx (MkOrderEvent oid wid []) d f).
    { intros d f0. unfold process_order_block, process_order_tx, mbind, eff_bind,
        lift. simpl.
      destruct (execute (select_order_id oid) d f0) as [existing d1 f2|e d1];
        [|reflexivity].
      destruct existing; reflexivity. }
    rewrite Hb.
    destruct (process_order_tx (MkOrderEvent oid wid []) (db w) f1)
      as [u2 d2 f2|e d2]; [|reflexivity].
    destruct (tick OperationalError w f2) as [u3 w3 f3|e w3]; reflexivity. }
  intros members oid wid im rest Hj H1 H2 H3 Hq. unfold process_order. rewrite Hj.
  unfold mbind, eff_bind, lift, subscript. rewrite H1, H2, H3.
  split; [|reflexivity].
  unfold engine_begin. simpl.
  destruct (process_order_block_missing_quantity oid wid im rest (db w) Hq)
    as [d' ->].
  reflexivity.
Qed.

Lemma malformed_bodies_witness :
  confirm_order json_loads_plain sum_left scenario_env "{}" stocked_world (Some 0%nat)
  = Raised KeyError stocked_world.
Proof.
  refine (proj1 (proj2 (proj2 (proj2
    (malformed_bodies json_loads_plain sum_left scenario_env "{}" stocked_world
       (Some 0%nat))))) [] _ _); vm_compute; reflexivity.
Defined.

(** * The credential surface *)

Section AuthProofs.

Variable pwd_hash : string → string.
Variable pwd_verify : string → string → bool.
Variable token : Type.
Variable jwt_encode : gmap string claim → token.
Variable jwt_decode : Z → token → option (gmap string claim).
Variable tuple_repr : list string → string.

Lemma fake_users_db_lookup username :
  fake_users_db pwd_hash !! username =
  if decide (username = "admin")
  then Some (MkUser "admin" (pwd_hash "admin123") "admin")
  else if decide (username = "warehouse")
       then Some (MkUser "warehouse" (pwd_hash "warehouse123") "warehouse")
       else None.
Proof.
  unfold fake_users_db, raw_users. simpl.
  destruct (decide (username = "admin")) as [->|H1];
    [by rewrite lookup_insert_eq|].
  rewrite lookup_insert_ne by congruence.
  destruct (decide (username = "warehouse")) as [->|H2];
    [by rewrite lookup_insert_eq|].
  rewrite lookup_insert_ne by congruence. apply lookup_empty.
Qed.

Lemma authenticate_user_unknown username password :
  username ≠ "admin" → username ≠ "warehouse" →
  authenticate_user pwd_hash pwd_verify username password = None.
Proof.
  intros H1 H2. unfold authenticate_user.
  rewrite fake_users_db_lookup, !decide_False by assumption. reflexivity.
Qed.

Lemma authenticate_user_cases username password u :
  (∀ p q, pwd_verify p (pwd_hash q) = true ↔ p = q) →
  authenticate_user pwd_hash pwd_verify username password = Some u ↔
  (username = "admin" ∧ password = "admin123" ∧
   u = MkUser "admin" (pwd_hash "admin123") "admin") ∨
  (username = "warehouse" ∧ password = "warehouse123" ∧
   u = MkUser "warehouse" (pwd_hash "warehouse123") "warehouse").
Proof.
  intros Hv. unfold authenticate_user, verify_password.
  rewrite fake_users_db_lookup.
  destruct (decide (username = "admin")) as [->|H1]; simpl.
  { destruct (pwd_verify password (pwd_hash "admin123")) eqn:E.
    - apply Hv in E. subst. split; [intros [= <-]; auto|].
      intros [(_ & _ & ->)|(? & _)]; [reflexivity | discriminate].
    - split; [discriminate|].
      intros [(_ & -> & _)|(? & _)]; [|discriminate].
      assert (pwd_verify "admin123" (pwd_hash "admin123") = true) by by apply Hv.
      congruence. }
  destruct (decide (username = "warehouse")) as [->|H2]; simpl.
  { destruct (pwd_verify password (pwd_hash "warehouse123")) eqn:E.
    - apply Hv in E. subst. split; [intros [= <-]; auto|].
      intros [(? & _)|(_ & _ & ->)]; [discriminate | reflexivity].
    - split; [discriminate|].
      intros [(? & _)|(_ & -> & _)]; [discriminate|].
      assert (pwd_verify "warehouse123" (pwd_hash "warehouse123") = true)
        by by apply Hv.
      congruence. }
  split; [discriminate|]. intros [(? & _)|(? & _)]; congruence.
Qed.

(** X10.  A name that is neither [admin] nor [warehouse] authenticates with no
    password, whatever the hash library does.  With a hash library that
    verifies a password against a hash exactly when it is the hashed
    password, the credentials that authenticate are the two pairs of
    [raw_users] and no other, and the user returned is the one named. *)
Theorem authenticate_user_exact :
  (∀ username password,
     username ≠ "admin" → username ≠ "warehouse" →
     authenticate_user pwd_hash pwd_verify username password = None) ∧
  ((∀ p q, pwd_verify p (pwd_hash q) = true ↔ p = q) →
   ∀ username password u,
     authenticate_user pwd_hash pwd_verify username password = Some u ↔
     (username = "admin" ∧ password = "admin123" ∧
      u = MkUser "admin" (pwd_hash "admin123") "admin") ∨
     (username = "warehouse" ∧ password = "warehouse123" ∧
      u = MkUser "warehouse" (pwd_hash "warehouse123") "warehouse")).
Proof.
  split; [apply authenticate_user_unknown|].
  intros Hv username password u. by apply authenticate_user_cases.
Qed.

Hypothesis pwd_sound : ∀ p q, pwd_verify p (pwd_hash q) = true ↔ p = q.
Hypothesis jwt_round_trip : ∀ claims now e,
  claims !! "exp" = Some (CTime e) → now ≤ e →
  jwt_decode now (jwt_encode claims) = Some claims.

(** X11.  With a hash library as above and a token library that decodes what
    it encoded for as long as [exp] is not past: credentials that do not
    authenticate get 401 and no token; credentials that do get a bearer token
    which, for an hour, verifies to a payload with the user's name as [sub],
    the user's role and the expiry an hour after the login, and with which a
    route that requires roles is open exactly when the user's own role is
    among them (the role of the two users is their name), and closed with 403
    otherwise. *)
Theorem login_grants_own_role username password now :
  match login pwd_hash pwd_verify token jwt_encode username password now with
  | inl e =>
    e = HTTPException 401 "Invalid username or password" ∧
    authenticate_user pwd_hash pwd_verify username password = None
  | inr resp =>
    token_type resp = "bearer" ∧
    (username = "admin" ∧ password = "admin123" ∨
     username = "warehouse" ∧ password = "warehouse123") ∧
    ∀ now', now' ≤ now + 3600 →
      (∃ payload,
         verify_token token jwt_decode now' (access_token resp) = inr payload ∧
         payload !! "sub" = Some (CStr username) ∧
         payload !! "role" = Some (CStr username) ∧
         payload !! "exp" = Some (CTime (now + 3600))) ∧
      ∀ roles,
        require_role token jwt_decode tuple_repr roles now' (access_token resp) =
        if decide (username ∈ roles) then inr tt
        else inl (HTTPException 403
                    ("Access denied: " +:+ tuple_repr roles +:+ " only."))
  end.
Proof.
  unfold login.
  destruct (authenticate_user pwd_hash pwd_verify username password) as [u|] eqn:E;
    [|auto].
  apply authenticate_user_cases in E; [|exact pwd_sound].
  split; [reflexivity|]. split.
  { destruct E as [(-> & -> & _)|(-> & -> & _)]; auto. }
  intros now' Hnow. unfold require_role, verify_token. simpl access_token.
  unfold create_access_token.
  rewrite (jwt_round_trip _ now' (now + ACCESS_TOKEN_EXPIRE_MINUTES * 60))
    by (rewrite ?lookup_insert_eq; unfold ACCESS_TOKEN_EXPIRE_MINUTES; auto with lia).
  split.
  - eexists. split; [reflexivity|].
    rewrite lookup_insert_eq, !lookup_insert_ne, !lookup_insert_eq,
      lookup_insert_ne, lookup_insert_eq by discriminate.
    destruct E as [(-> & _ & ->)|(-> & _ & ->)]; auto.
  - intros roles. unfold role_checker. rewrite lookup_insert_ne by discriminate.
    rewrite lookup_insert_eq.
    destruct E as [(-> & _ & ->)|(-> & _ & ->)]; simpl;
      destruct (decide (_ ∈ roles)); reflexivity.
Qed.

End AuthProofs.

Lemma authenticate_user_exact_witness :
  authenticate_user (λ p, p) plain_verify "warehouse" "warehouse123"
  = Some (MkUser "warehouse" "warehouse123" "warehouse").
Proof.
  apply (proj2 (authenticate_user_exact (λ p, p) plain_verify)).
  - intros p q. apply bool_decide_eq_true.
  - right. auto.
Defined.

Lemma open_decode_round_trip (claims : gmap string claim) now e :
  claims !! "exp" = Some (CTime e) → now ≤ e → open_decode now claims = Some claims.
Proof. intros H Hle. unfold open_decode. rewrite H. by rewrite decide_True. Qed.

Lemma login_grants_own_role_witness :
  match login (λ p, p) plain_verify (gmap string claim) (λ c, c)
          "warehouse" "warehouse123" 1000 with
  | inl _ => False
  | inr resp =>
    require_role (gmap string claim) open_decode (λ _, "(admin)") ["admin"] 2000
      (access_token resp)
    = inl (HTTPException 403 "Access denied: (admin) only.")
  end.
Proof.
  pose proof (login_grants_own_role (λ p, p) plain_verify (gmap string claim)
    (λ c, c) open_decode (λ _, "(admin)")
    (λ p q, bool_decide_eq_true (p = q)) open_decode_round_trip
    "warehouse" "warehouse123" 1000) as H.
  destruct (login (λ p, p) plain_verify (gmap string claim) (λ c, c)
              "warehouse" "warehouse123" 1000) as [e|resp] eqn:E.
  - destruct H as [_ H]. vm_compute in H. discriminate H.
  - destruct H as (_ & _ & H). destruct (H 2000 ltac:(lia)) as [_ Hr].
    rewrite (Hr ["admin"]). reflexivity.
Defined.
